(** * GeneratePDFs Node SDK: the client and the Pdf handle

    A shallow embedding of [src/GeneratePDFs.js] and [src/Pdf.js] (and of
    their TypeScript twins), with the properties of the specification proved
    over it.

    The JavaScript runtime the SDK runs on (number formatting, [Date],
    [URL], [JSON.stringify], the file system and [fetch]) is not code of the
    package: it is a parameter of the development, the class [Host].
    Everything the package itself does is a definition below;
    [writeFileSync], which only [Pdf.downloadToFile] calls, is a parameter of
    its own, the class [Disk].

    Conventions.
    - A JS string is a Rocq [string], a sequence of bytes (UTF-8).
    - A JS number is an IEEE 754 double, Stdlib's [spec_float].
    - [async] functions are functions of the monad [M]: [await] is bind.
    - [Pdf] objects live in a heap and handles are references to it. *)

From Stdlib Require Import ZArith List String Ascii Bool Lia.
From Stdlib Require Import SpecFloat Strings.Byte DecimalString DecimalPos.
From stdpp Require Import base tactics option list.
Import ListNotations.
Set Warnings "-register-all".
Local Open Scope list_scope.
Local Open Scope string_scope.

(** ** Numbers *)

Definition JsNumber : Type := spec_float.

(** The double nearest to an integer (exact below 2^53). *)
Definition Number_ofZ (z : Z) : JsNumber := binary_normalize 53 1024 z 0 false.

Definition zero : JsNumber := S754_zero false.

(** The global [isNaN] on a number. *)
Definition isNaN (n : JsNumber) : bool :=
  match n with S754_nan => true | _ => false end.

(** [x <= 0] of the language: false as soon as [x] is NaN. *)
Definition le_zero (x : JsNumber) : bool := SFleb x zero.

(** A double [m * 2^e] whose value is a whole number greater than zero. *)
Definition is_positive_integer (x : JsNumber) : bool :=
  match x with
  | S754_finite false m e =>
      match e with
      | Zneg k => (Zpos m mod 2 ^ Zpos k =? 0)%Z
      | _ => true
      end
  | _ => false
  end.

(** ** Values *)

(** The primitive values a JSON member can hold, and [undefined] for a
    member that is missing. *)
Inductive JsPrimitive : Type :=
| JUndefined
| JNull
| JBool (b : bool)
| JNumber (n : JsNumber)
| JString (s : string).

(** Objects of the runtime that a property read on an object literal can
    reach through its prototype. *)
Inductive Intrinsic : Type :=
| ObjectConstructor
| ObjectPrototype
| ObjectPrototypeMethod (name : string).

(** Values handed to [JSON.stringify] as request payloads. *)
Inductive JsValue : Type :=
| VPrim (p : JsPrimitive)
| VArray (elements : list JsValue)
| VObject (members : list (string * JsValue))
| VIntrinsic (i : Intrinsic).

Definition VString (s : string) : JsValue := VPrim (JString s).

(** [!!v]: the falsy primitives are [undefined], [null], [false], [+0], [-0],
    [NaN] and the empty string. *)
Definition ToBoolean (v : JsPrimitive) : bool :=
  match v with
  | JUndefined | JNull => false
  | JBool b => b
  | JNumber (S754_zero _) | JNumber S754_nan => false
  | JNumber _ => true
  | JString "" => false
  | JString _ => true
  end.

(** A [Date] object: its time value, NaN for an invalid date. *)
Record JsDate : Type := mkDate { getTime : JsNumber }.

(** ** Errors *)

(** What the runtime itself throws. A [SystemError] is an error of the file
    system: in Node an [Error] object with a [code] such as EISDIR or EACCES,
    of no class of its own. *)
Inductive HostErrorKind : Type :=
| TypeError | SyntaxError | RangeError | SystemError | NetworkError.

Record HostError : Type := mkHostError {
  host_kind : HostErrorKind;
  host_message : string
}.

(** Where an error was made. The first three are made by the package: its
    two exception classes ([src/exceptions]) and the [new Error(message)] of
    the client on a failed HTTP call. [Thrown e] is an error object that the
    runtime made and the package lets through as it is. The constructor says
    who made the object, not what class it has: a [Thrown] error of the file
    system is an [Error] object in Node as well, so [instanceof Error] and the
    name of the class do not tell it from the client's own. *)
Inductive JsError : Type :=
| InvalidArgumentException (message : string)
| RuntimeException (message : string)
| Error (message : string)
| Thrown (e : HostError).

(** [error instanceof InvalidArgumentException] *)
Definition instanceof_InvalidArgumentException (e : JsError) : bool :=
  match e with InvalidArgumentException _ => true | _ => false end.

Inductive Completion (A : Type) : Type :=
| Return (a : A)
| Throw (e : JsError).
Arguments Return {A} a.
Arguments Throw {A} e.

Definition of_host {A : Type} (r : HostError + A) : Completion A :=
  match r with
  | inl e => Throw (Thrown e)
  | inr a => Return a
  end.

(** ** HTTP *)

Definition Buffer : Type := list byte.

Record RequestInit : Type := mkInit {
  method : option string;
  headers : list (string * string);
  body : option string
}.

Record Request : Type := mkRequest {
  request_url : string;
  request_init : RequestInit
}.

(** [fetch] without a [method] sends a GET. *)
Definition request_method (r : Request) : string :=
  match method (request_init r) with
  | Some m => m
  | None => "GET"
  end.

Module PdfData.
(** The [data] member of a response. A member that is missing reads as
    [JUndefined]; a member may hold any primitive. The type the code declares
    for the data ([id] a number, the other four members strings; see
    [declared] below) is within these; a member that holds an array or an
    object is outside the model, and nothing is stated about it. *)
Record t : Type := mk {
  id : JsPrimitive;
  name : JsPrimitive;
  status : JsPrimitive;
  download_url : JsPrimitive;
  created_at : JsPrimitive
}.
End PdfData.

(** The decoded JSON body of the API ([ApiResponse]): [data] is [None] when
    the member is missing or falsy. A truthy [data] that is not an object has
    no member of its own: it is a [PdfData.t] of [JUndefined]s. *)
Module ApiResponse.
Record t : Type := mk {
  data : option PdfData.t
}.
End ApiResponse.

(** A [Response], received in full: [text()] and [arrayBuffer()] return the
    body, [json()] decodes it or throws. ([json] is [inl] too for a body that
    decodes to [null]: reading its [data] throws a [TypeError].) *)
Record Response : Type := mkResponse {
  ok : bool;
  status : JsNumber;
  statusText : string;
  text : string;
  json : HostError + ApiResponse.t;
  arrayBuffer : Buffer
}.

(** ** The runtime *)

Class Host : Type := {
  (** [String(n)] and [`${n}`] on a number *)
  Number_toString : JsNumber -> string;
  Number_toString_nonempty : forall n, Number_toString n <> "";
  (** [Number(s)] on a string *)
  String_toNumber : string -> JsNumber;
  (** [new Date(v)] *)
  Date_new : JsPrimitive -> HostError + JsDate;
  (** [new URL(s)]: the parsed URL is never looked at *)
  URL_new : string -> HostError + unit;
  JSON_stringify : JsValue -> string;
  existsSync : string -> bool;
  readFileSync : string -> HostError + Buffer;
  (** The answer to a request, given the requests sent before it (newest
      first). *)
  fetch_response : list Request -> Request -> HostError + Response
}.

(** ** Text *)

(** [String.prototype.toLowerCase] on the bytes of a string: the ASCII
    capitals are mapped, every other byte is kept. (On text outside ASCII the
    runtime maps more letters; none of them yields a key of [mimeTypes] or a
    name inherited from [Object.prototype].) *)
Definition lower_ascii (c : ascii) : ascii :=
  let n := nat_of_ascii c in
  if (65 <=? n)%nat && (n <=? 90)%nat then ascii_of_nat (n + 32) else c.

Fixpoint toLowerCase (s : string) : string :=
  match s with
  | EmptyString => EmptyString
  | String c rest => String (lower_ascii c) (toLowerCase rest)
  end.

(** [s.split(sep)] for a separator of one character, the piece being read
    carried in [piece]: [split_from sep "" s] is never empty. *)
Fixpoint split_from (sep : ascii) (piece : string) (s : string) : list string :=
  match s with
  | EmptyString => [piece]
  | String c rest =>
      if Ascii.eqb c sep then piece :: split_from sep EmptyString rest
      else split_from sep (piece ++ String c EmptyString) rest
  end.

Definition split (sep : ascii) (s : string) : list string :=
  split_from sep EmptyString s.

(** [Array.prototype.pop], for its result: the last element, [None] standing
    for [undefined] on an empty array. *)
Definition pop {A : Type} (l : list A) : option A := last l.

(** [haystack.includes(needle)] *)
Fixpoint includes (haystack needle : string) : bool :=
  String.prefix needle haystack ||
  match haystack with
  | EmptyString => false
  | String _ rest => includes rest needle
  end.

(** ** [Buffer.prototype.toString('base64')] (RFC 4648, with padding) *)

Definition base64_alphabet : string :=
  "ABCDEFGHIJKLMNOPQRSTUVWXYZabcdefghijklmnopqrstuvwxyz0123456789+/".

Definition base64_digit (n : N) : ascii :=
  match String.get (N.to_nat n) base64_alphabet with
  | Some c => c
  | None => "="%char
  end.

Definition sextet (k : N) (word : N) : ascii :=
  base64_digit (N.land (N.shiftr word (6 * k)) 63).

Fixpoint base64 (bytes : Buffer) : string :=
  match bytes with
  | [] => EmptyString
  | [a] =>
      let w := N.shiftl (Byte.to_N a) 16 in
      String (sextet 3 w) (String (sextet 2 w) "==")
  | [a; b] =>
      let w := N.lor (N.shiftl (Byte.to_N a) 16) (N.shiftl (Byte.to_N b) 8) in
      String (sextet 3 w) (String (sextet 2 w) (String (sextet 1 w) "="))
  | a :: b :: c :: rest =>
      let w := N.lor (N.lor (N.shiftl (Byte.to_N a) 16)
                            (N.shiftl (Byte.to_N b) 8)) (Byte.to_N c) in
      String (sextet 3 w) (String (sextet 2 w)
        (String (sextet 1 w) (String (sextet 0 w) (base64 rest))))
  end.

(** ** The client, the heap of [Pdf] objects and the monad *)

(** An instance of [GeneratePDFs]: its two private fields. *)
Record GeneratePDFs : Type := mkClient {
  apiToken : string;
  baseUrl : string
}.

(** An instance of [Pdf]: the private fields its constructor assigns. No
    method of the class assigns them again. *)
Record Pdf : Type := new_Pdf {
  priv_id : JsNumber;
  priv_name : string;
  priv_status : string;
  priv_downloadUrl : string;
  priv_createdAt : JsDate;
  priv_client : GeneratePDFs
}.

(** A handle is a reference to a [Pdf] object. *)
Abbreviation PdfRef := nat.

Record World : Type := mkWorld {
  heap : list Pdf;
  requests : list Request   (* every request sent so far, newest first *)
}.

Definition M (A : Type) : Type := World -> Completion A * World.

Definition ret {A : Type} (a : A) : M A := fun w => (Return a, w).

Definition throw {A : Type} (e : JsError) : M A := fun w => (Throw e, w).

Definition bind {A B : Type} (c : M A) (k : A -> M B) : M B :=
  fun w =>
    match c w with
    | (Return a, w') => k a w'
    | (Throw e, w') => (Throw e, w')
    end.

Definition lift {A : Type} (c : Completion A) : M A := fun w => (c, w).

(** [try { body } catch (error) { handler }] *)
Definition try_catch {A : Type} (body : M A) (handler : JsError -> M A) : M A :=
  fun w =>
    match body w with
    | (Return a, w') => (Return a, w')
    | (Throw e, w') => handler e w'
    end.

Declare Scope js_scope.
Delimit Scope js_scope with js.
Notation "x <- c ;; k" := (bind c (fun x => k))
  (at level 100, c at next level, right associativity) : js_scope.
Notation "c ;;; k" := (bind c (fun _ => k))
  (at level 100, right associativity) : js_scope.
Local Open Scope js_scope.

(** [new Pdf(...)]: a fresh object, at the end of the heap. *)
Definition alloc (o : Pdf) : M PdfRef :=
  fun w => (Return (length (heap w)), mkWorld (heap w ++ [o])%list (requests w)).

(** [this.#field]: reading a private field of something that is not a [Pdf]
    is a [TypeError]. *)
Definition read {A : Type} (this : PdfRef) (field : Pdf -> A) : M A :=
  fun w =>
    match heap w !! this with
    | Some o => (Return (field o), w)
    | None =>
        (Throw (Thrown (mkHostError TypeError
           "Cannot read private member from an object whose class did not declare it")), w)
    end.

Module ImageInput.
(** [ImageInput]: [mimeType] is [None] when the member is left out. *)
Record t : Type := mk {
  name : string;
  path : string;
  mimeType : option string
}.
End ImageInput.

Module ProcessedImage.
Record t : Type := mk {
  name : string;
  content : string;
  mime_type : JsValue
}.

(** The object literal [{ name, content, mime_type }]. *)
Definition literal (i : t) : JsValue :=
  VObject [("name", VString (name i));
           ("content", VString (content i));
           ("mime_type", mime_type i)].
End ProcessedImage.

(** [!!s] on a string: [s] is not the empty string. *)
Definition truthy (s : string) : bool := ToBoolean (JString s).

(** *** [#detectMimeType] *)

Definition mimeTypes : list (string * string) :=
  [("jpg", "image/jpeg");
   ("jpeg", "image/jpeg");
   ("png", "image/png");
   ("gif", "image/gif");
   ("webp", "image/webp");
   ("svg", "image/svg+xml")].

Fixpoint own_property (members : list (string * string)) (key : string)
  : option string :=
  match members with
  | [] => None
  | (k, v) :: rest => if String.eqb k key then Some v else own_property rest key
  end.

(** What an object literal inherits: the properties of [Object.prototype]. *)
Definition Object_prototype (key : string) : option Intrinsic :=
  if String.eqb key "constructor" then Some ObjectConstructor
  else if String.eqb key "__proto__" then Some ObjectPrototype
  else if existsb (String.eqb key)
            ["__defineGetter__"; "__defineSetter__"; "__lookupGetter__";
             "__lookupSetter__"; "hasOwnProperty"; "isPrototypeOf";
             "propertyIsEnumerable"; "toLocaleString"; "toString"; "valueOf"]
       then Some (ObjectPrototypeMethod key)
  else None.

(** [literal[key]] for an object literal whose own members are strings: the
    own member, else the inherited one, else [None] for [undefined]. *)
Definition Get (members : list (string * string)) (key : string)
  : option JsValue :=
  match own_property members key with
  | Some v => Some (VString v)
  | None => VIntrinsic <$> Object_prototype key
  end.

Definition detectMimeType (filePath : string) : JsValue :=
  let extension :=
    match pop (split "." filePath) with
    | Some piece => toLowerCase piece
    | None => ""
    end in
  match Get mimeTypes extension with
  | Some v => v
  | None => VString "application/octet-stream"
  end.

Section SDK.
Context `{Host}.

(** [String(v)] and [`${v}`] on a primitive. *)
Definition ToString (v : JsPrimitive) : string :=
  match v with
  | JUndefined => "undefined"
  | JNull => "null"
  | JBool true => "true"
  | JBool false => "false"
  | JNumber n => Number_toString n
  | JString s => s
  end.

(** [Number(v)] on a primitive. *)
Definition ToNumber (v : JsPrimitive) : JsNumber :=
  match v with
  | JUndefined => S754_nan
  | JNull => zero
  | JBool true => Number_ofZ 1
  | JBool false => zero
  | JNumber n => n
  | JString s => String_toNumber s
  end.

(** [await fetch(url, init)]: the request is recorded, whatever the answer. *)
Definition fetch (url : string) (init : RequestInit) : M Response :=
  fun w =>
    let request := mkRequest url init in
    (of_host (fetch_response (requests w) request),
     mkWorld (heap w) (request :: requests w)).

(** *** [Pdf.fromArray] *)

Definition fromArray (data : PdfData.t) (client : GeneratePDFs) : M PdfRef :=
  if negb (ToBoolean (PdfData.id data))
     || negb (ToBoolean (PdfData.name data))
     || negb (ToBoolean (PdfData.status data))
     || negb (ToBoolean (PdfData.download_url data))
     || negb (ToBoolean (PdfData.created_at data))
  then throw (InvalidArgumentException "Invalid PDF data structure")
  else
    createdAt <-
      try_catch
        (createdAt <- lift (of_host (Date_new (PdfData.created_at data))) ;;
         if isNaN (getTime createdAt)
         then throw (InvalidArgumentException
                       ("Invalid created_at format: "
                          ++ ToString (PdfData.created_at data)))
         else ret createdAt)
        (fun error =>
           if instanceof_InvalidArgumentException error
           then throw error
           else throw (InvalidArgumentException
                         ("Invalid created_at format: "
                            ++ ToString (PdfData.created_at data)))) ;;
    alloc (new_Pdf (ToNumber (PdfData.id data))
                   (ToString (PdfData.name data))
                   (ToString (PdfData.status data))
                   (ToString (PdfData.download_url data))
                   createdAt
                   client).

(** *** [GeneratePDFs] *)

Definition BASE_URL : string := "https://api.generatepdfs.com".

Definition connect (apiToken : string) : GeneratePDFs :=
  mkClient apiToken BASE_URL.

Definition Authorization (this : GeneratePDFs) : string * string :=
  ("Authorization", "Bearer " ++ apiToken this).

(** [#processImages]: the loop, [processed] being the array built so far. *)
Fixpoint processImages_from (processed : list ProcessedImage.t)
    (images : list ImageInput.t) : Completion (list ProcessedImage.t) :=
  match images with
  | [] => Return processed
  | image :: rest =>
      if negb (truthy (ImageInput.path image))
         || negb (truthy (ImageInput.name image))
      then processImages_from processed rest
      else
        let path := ImageInput.path image in
        let name := ImageInput.name image in
        if negb (existsSync path) then processImages_from processed rest
        else
          match of_host (readFileSync path) with
          | Throw e => Throw e
          | Return content =>
              let contentBase64 := base64 content in
              let mimeType :=
                match ImageInput.mimeType image with
                | Some m => VString m
                | None => detectMimeType path
                end in
              processImages_from
                (processed ++ [ProcessedImage.mk name contentBase64 mimeType])%list
                rest
          end
  end.

Definition processImages (images : list ImageInput.t)
  : Completion (list ProcessedImage.t) :=
  processImages_from [] images.

Definition makeRequest (this : GeneratePDFs) (endpoint : string)
    (data : JsValue) : M ApiResponse.t :=
  let url := baseUrl this ++ endpoint in
  response <- fetch url
    {| method := Some "POST";
       headers := [Authorization this; ("Content-Type", "application/json")];
       body := Some (JSON_stringify data) |} ;;
  if negb (ok response) then
    let errorText := text response in
    throw (Error ("API request failed: " ++ Number_toString (status response)
                    ++ " " ++ statusText response ++ " - " ++ errorText))
  else lift (of_host (json response)).

Definition makeGetRequest (this : GeneratePDFs) (endpoint : string)
  : M ApiResponse.t :=
  let url := baseUrl this ++ endpoint in
  response <- fetch url
    {| method := None; headers := [Authorization this]; body := None |} ;;
  if negb (ok response) then
    let errorText := text response in
    throw (Error ("API request failed: " ++ Number_toString (status response)
                    ++ " " ++ statusText response ++ " - " ++ errorText))
  else lift (of_host (json response)).

(** [cssPath] is [None] for [null] and for [undefined]. *)
Definition generateFromHtml (this : GeneratePDFs) (htmlPath : string)
    (cssPath : option string) (images : list ImageInput.t) : M PdfRef :=
  if negb (existsSync htmlPath) then
    throw (InvalidArgumentException
             ("HTML file not found or not readable: " ++ htmlPath))
  else
    htmlContent <- lift (of_host (readFileSync htmlPath)) ;;
    let htmlBase64 := base64 htmlContent in
    let data := [("html", VString htmlBase64)] in
    data <-
      match cssPath with
      | Some cssPath =>
          if negb (existsSync cssPath) then
            throw (InvalidArgumentException
                     ("CSS file not found or not readable: " ++ cssPath))
          else
            cssContent <- lift (of_host (readFileSync cssPath)) ;;
            ret (data ++ [("css", VString (base64 cssContent))])%list
      | None => ret data
      end ;;
    data <-
      (if (0 <? length images)%nat then
         processed <- lift (processImages images) ;;
         ret (data ++ [("images",
                        VArray (ProcessedImage.literal <$> processed))])%list
       else ret data) ;;
    response <- makeRequest this "/pdfs/generate" (VObject data) ;;
    match ApiResponse.data response with
    | None => throw (InvalidArgumentException "Invalid API response: missing data")
    | Some d => fromArray d this
    end.

Definition generateFromUrl (this : GeneratePDFs) (url : string) : M PdfRef :=
  try_catch (lift (of_host (URL_new url)))
            (fun _ => throw (InvalidArgumentException ("Invalid URL: " ++ url))) ;;;
  let data := VObject [("url", VString url)] in
  response <- makeRequest this "/pdfs/generate" data ;;
  match ApiResponse.data response with
  | None => throw (InvalidArgumentException "Invalid API response: missing data")
  | Some d => fromArray d this
  end.

Definition getPdf (this : GeneratePDFs) (id : JsNumber) : M PdfRef :=
  if le_zero id then
    throw (InvalidArgumentException ("Invalid PDF ID: " ++ Number_toString id))
  else
    response <- makeGetRequest this ("/pdfs/" ++ Number_toString id) ;;
    match ApiResponse.data response with
    | None => throw (InvalidArgumentException "Invalid API response: missing data")
    | Some d => fromArray d this
    end.

Definition downloadPdf (this : GeneratePDFs) (downloadUrl : string) : M Buffer :=
  response <- fetch downloadUrl
    {| method := None; headers := [Authorization this]; body := None |} ;;
  if negb (ok response) then
    throw (Error ("Failed to download PDF: " ++ statusText response))
  else ret (arrayBuffer response).

(** *** [Pdf], the methods *)

Definition getId (this : PdfRef) : M JsNumber := read this priv_id.

Definition isReady (this : PdfRef) : M bool :=
  status <- read this priv_status ;;
  ret (String.eqb status "completed").

Definition download (this : PdfRef) : M Buffer :=
  ready <- isReady this ;;
  if negb ready then
    status <- read this priv_status ;;
    throw (RuntimeException ("PDF is not ready yet. Current status: " ++ status))
  else
    client <- read this priv_client ;;
    downloadUrl <- read this priv_downloadUrl ;;
    downloadPdf client downloadUrl.

Definition refresh (this : PdfRef) : M PdfRef :=
  client <- read this priv_client ;;
  id <- read this priv_id ;;
  getPdf client id.

End SDK.

(** ** [Pdf.downloadToFile]

    The one method that writes. What [writeFileSync] does to the disk is the
    runtime's; the SDK sees that it returns or that it throws. *)

Class Disk : Type := {
  writeFileSync : string -> Buffer -> HostError + unit
}.

(** Every call of [writeFileSync] so far, newest first: the path and the
    bytes handed over. *)
Abbreviation Writes := (list (string * Buffer)).

Section ToFile.
Context `{Host} `{Disk}.

Definition downloadToFile (this : PdfRef) (filePath : string)
  : World * Writes -> Completion bool * (World * Writes) :=
  fun '(w, writes) =>
    match download this w with
    | (Throw e, w') => (Throw e, (w', writes))
    | (Return content, w') =>
        (match writeFileSync filePath content with
         | inr _ => Return true
         | inl error =>
             Throw (RuntimeException
                      ("Failed to write PDF to file: " ++ filePath))
         end,
         (w', (filePath, content) :: writes))
    end.

End ToFile.

(** * The words of the specification

    What the properties below are stated with: nothing here is run by the
    SDK. *)

(** A public operation that returns a handle. *)
Inductive Operation : Type :=
| GenerateFromHtml (htmlPath : string) (cssPath : option string)
                   (images : list ImageInput.t)
| GenerateFromUrl (url : string)
| GetPdf (id : JsNumber)
| Refresh (this : PdfRef).

Section Words.
Context `{Host}.

(** All five required members are present and truthy. *)
Definition complete (data : PdfData.t) : bool :=
  ToBoolean (PdfData.id data)
  && ToBoolean (PdfData.name data)
  && ToBoolean (PdfData.status data)
  && ToBoolean (PdfData.download_url data)
  && ToBoolean (PdfData.created_at data).

(** The creation time parses to a valid timestamp: [Some] of the date. *)
Definition timestamp (created_at : JsPrimitive) : option JsDate :=
  match Date_new created_at with
  | inr d => if isNaN (getTime d) then None else Some d
  | inl _ => None
  end.

(** The handle [fromArray] builds from complete data and its date. *)
Definition Pdf_of (data : PdfData.t) (createdAt : JsDate) (client : GeneratePDFs)
  : Pdf :=
  new_Pdf (ToNumber (PdfData.id data))
          (ToString (PdfData.name data))
          (ToString (PdfData.status data))
          (ToString (PdfData.download_url data))
          createdAt client.

(** How the three operations that return a handle end, once they have the
    decoded response. *)
Definition handle_of (this : GeneratePDFs) (response : ApiResponse.t) : M PdfRef :=
  match ApiResponse.data response with
  | None => throw (InvalidArgumentException "Invalid API response: missing data")
  | Some d => fromArray d this
  end.

(** The members of the payload [generateFromHtml] builds before it sends
    anything, or the error that stops it. *)
Definition html_payload (htmlPath : string) (cssPath : option string)
    (images : list ImageInput.t) : Completion (list (string * JsValue)) :=
  if negb (existsSync htmlPath) then
    Throw (InvalidArgumentException
             ("HTML file not found or not readable: " ++ htmlPath))
  else
    match of_host (readFileSync htmlPath) with
    | Throw e => Throw e
    | Return htmlContent =>
        let htmlBase64 := base64 htmlContent in
        let data := [("html", VString htmlBase64)] in
        let with_css : Completion (list (string * JsValue)) :=
          match cssPath with
          | Some cssPath =>
              if negb (existsSync cssPath) then
                Throw (InvalidArgumentException
                         ("CSS file not found or not readable: " ++ cssPath))
              else
                match of_host (readFileSync cssPath) with
                | Throw e => Throw e
                | Return cssContent =>
                    Return (data ++ [("css", VString (base64 cssContent))])%list
                end
          | None => Return data
          end in
        match with_css with
        | Throw e => Throw e
        | Return data =>
            if (0 <? length images)%nat then
              match processImages images with
              | Throw e => Throw e
              | Return processed =>
                  Return (data ++ [("images",
                            VArray (ProcessedImage.literal <$> processed))])%list
              end
            else Return data
        end
    end.

(** The path names a file that exists and can be read. *)
Definition readable (path : string) : Prop :=
  existsSync path = true /\ exists content, readFileSync path = inr content.

(** The entries [#processImages] does not skip: a name, a path, and the path
    exists. *)
Definition kept (image : ImageInput.t) : bool :=
  truthy (ImageInput.name image)
  && truthy (ImageInput.path image)
  && existsSync (ImageInput.path image).

(** The extension of a path: what follows its last dot, in lower case. *)
Definition extension (filePath : string) : string :=
  match pop (split "." filePath) with
  | Some piece => toLowerCase piece
  | None => ""
  end.

(** The extension table, with its default. *)
Definition table_mime (ext : string) : string :=
  match own_property mimeTypes ext with
  | Some m => m
  | None => "application/octet-stream"
  end.

(** The MIME type of an entry: the caller's, else the table's. *)
Definition resolved_mime (image : ImageInput.t) : string :=
  match ImageInput.mimeType image with
  | Some m => m
  | None => table_mime (extension (ImageInput.path image))
  end.

(** [readFileSync] returns on this path. *)
Definition can_read (path : string) : bool :=
  match readFileSync path with inr _ => true | inl _ => false end.

(** What [readFileSync] returns on this path. *)
Definition file_bytes (path : string) : Buffer :=
  match readFileSync path with inr content => content | inl _ => [] end.

(** The triple of an entry. *)
Definition triple (image : ImageInput.t) : ProcessedImage.t :=
  ProcessedImage.mk (ImageInput.name image)
                    (base64 (file_bytes (ImageInput.path image)))
                    (VString (resolved_mime image)).

(** What [#processImages] pushes for an entry it keeps. *)
Definition entry (image : ImageInput.t) : ProcessedImage.t :=
  ProcessedImage.mk (ImageInput.name image)
                    (base64 (file_bytes (ImageInput.path image)))
                    match ImageInput.mimeType image with
                    | Some m => VString m
                    | None => detectMimeType (ImageInput.path image)
                    end.

(** The two lower-case names every object literal inherits. *)
Definition inherited_name (ext : string) : bool :=
  String.eqb ext "constructor" || String.eqb ext "__proto__".

(** The POST of [#makeRequest]. *)
Definition POST (this : GeneratePDFs) (endpoint : string) (data : JsValue)
  : Request :=
  mkRequest (baseUrl this ++ endpoint)
    {| method := Some "POST";
       headers := [Authorization this; ("Content-Type", "application/json")];
       body := Some (JSON_stringify data) |}.

(** The GET of [#makeGetRequest] and of [downloadPdf]. *)
Definition GET (this : GeneratePDFs) (url : string) : Request :=
  mkRequest url
    {| method := None; headers := [Authorization this]; body := None |}.

(** The world once a request has been sent. *)
Definition after (request : Request) (w : World) : World :=
  mkWorld (heap w) (request :: requests w).

(** The error of an API call answered with a status that is not a success. *)
Definition api_failure (r : Response) : JsError :=
  Error ("API request failed: " ++ Number_toString (status r) ++ " "
           ++ statusText r ++ " - " ++ text r).

(** The error of a download answered with such a status. *)
Definition download_failure (r : Response) : JsError :=
  Error ("Failed to download PDF: " ++ statusText r).

(** The call of an operation, on [client] (a handle refreshes on the client
    it holds). *)
Definition run (client : GeneratePDFs) (op : Operation) : M PdfRef :=
  match op with
  | GenerateFromHtml htmlPath cssPath images =>
      generateFromHtml client htmlPath cssPath images
  | GenerateFromUrl url => generateFromUrl client url
  | GetPdf id => getPdf client id
  | Refresh this => refresh this
  end.

End Words.

(** An ASCII capital, and a string with one. *)
Definition is_capital (c : ascii) : bool :=
  let n := nat_of_ascii c in (65 <=? n)%nat && (n <=? 90)%nat.

Fixpoint has_capital (s : string) : bool :=
  match s with
  | EmptyString => false
  | String c rest => is_capital c || has_capital rest
  end.


(** ** More words: what an operation sends and what it makes of the answer *)

Section Answers.
Context `{Host}.

(** The client an operation acts for: a handle refreshes on its own. *)
Definition acting (client : GeneratePDFs) (op : Operation) (w : World)
  : GeneratePDFs :=
  match op with
  | Refresh this =>
      match heap w !! this with
      | Some o => priv_client o
      | None => client
      end
  | _ => client
  end.

(** The id an operation asks for, when it is [getPdf] or [refresh]. *)
Definition asked_id (op : Operation) (w : World) : option JsNumber :=
  match op with
  | GetPdf id => Some id
  | Refresh this => priv_id <$> heap w !! this
  | _ => None
  end.

(** The request an operation sends once its local checks are passed, [None]
    when a check stops it. *)
Definition request_of (client : GeneratePDFs) (op : Operation) (w : World)
  : option Request :=
  match op with
  | GenerateFromHtml htmlPath cssPath images =>
      match html_payload htmlPath cssPath images with
      | Return payload => Some (POST client "/pdfs/generate" (VObject payload))
      | Throw _ => None
      end
  | GenerateFromUrl url =>
      match URL_new url with
      | inr _ =>
          Some (POST client "/pdfs/generate" (VObject [("url", VString url)]))
      | inl _ => None
      end
  | GetPdf _ | Refresh _ =>
      match asked_id op w with
      | Some id =>
          if le_zero id then None
          else Some (GET (acting client op w)
                         (baseUrl (acting client op w) ++ "/pdfs/"
                            ++ Number_toString id))
      | None => None
      end
  end.

(** What is made of the answer to that request. *)
Definition settle (this : GeneratePDFs) (answer : HostError + Response)
  : M PdfRef :=
  match answer with
  | inl e => throw (Thrown e)
  | inr r =>
      if ok r then
        match json r with
        | inl e => throw (Thrown e)
        | inr response => handle_of this response
        end
      else throw (api_failure r)
  end.

(** The error of the first file [#processImages] opens and cannot read. *)
Fixpoint first_unreadable (images : list ImageInput.t) : option HostError :=
  match images with
  | [] => None
  | image :: rest =>
      if kept image then
        match readFileSync (ImageInput.path image) with
        | inl e => Some e
        | inr _ => first_unreadable rest
        end
      else first_unreadable rest
  end.

(** The array of [{ name, content, mime_type }] that the entries kept give
    when their files can be read. *)
Definition attached (images : list ImageInput.t) : list JsValue :=
  map (fun image =>
         VObject [("name", VString (ImageInput.name image));
                  ("content",
                   VString (base64 (file_bytes (ImageInput.path image))));
                  ("mime_type",
                   match ImageInput.mimeType image with
                   | Some m => VString m
                   | None => detectMimeType (ImageInput.path image)
                   end)])
      (List.filter kept images).

(** The path exists and [readFileSync] returns on it. *)
Definition opens (path : string) : bool := existsSync path && can_read path.

(** The members of the payload when every file opens: [html], then [css]
    when a CSS path is given, then [images] when the list is not empty. *)
Definition html_members (htmlPath : string) (cssPath : option string)
    (images : list ImageInput.t) : list (string * JsValue) :=
  (("html", VString (base64 (file_bytes htmlPath)))
     :: match cssPath with
        | Some cssPath => [("css", VString (base64 (file_bytes cssPath)))]
        | None => []
        end
     ++ if (0 <? length images)%nat
        then [("images",
               VArray (ProcessedImage.literal <$> map entry (List.filter kept images)))]
        else [])%list.

End Answers.

(** The paths an operation opens with [readFileSync]. *)
Definition files_of (op : Operation) : list string :=
  match op with
  | GenerateFromHtml htmlPath cssPath images =>
      (htmlPath :: match cssPath with Some cssPath => [cssPath] | None => [] end
         ++ map ImageInput.path images)%list
  | _ => []
  end.

(** An error of the checks made before anything is sent. *)
Definition local_error (e : JsError) : Prop :=
  match e with
  | InvalidArgumentException _ | Thrown _ => True
  | RuntimeException _ | Error _ => False
  end.

(** A string with this character in it. *)
Fixpoint has_char (c : ascii) (s : string) : bool :=
  match s with
  | EmptyString => false
  | String a rest => Ascii.eqb a c || has_char c rest
  end.

(** *** Reading base64 back (RFC 4648) *)

Fixpoint index_from (n : N) (alphabet : string) (c : ascii) : option N :=
  match alphabet with
  | EmptyString => None
  | String a rest => if Ascii.eqb a c then Some n else index_from (n + 1) rest c
  end.

(** The value of a digit of the alphabet. *)
Definition base64_value (c : ascii) : option N :=
  index_from 0 base64_alphabet c.

(** The low eight bits, as a byte. *)
Definition low_byte (n : N) : byte :=
  match Byte.of_N (n mod 256) with
  | Some b => b
  | None => "000"%byte
  end.

(** The bytes of a base64 text, four digits at a time; [None] for a text
    that is not base64. *)
Fixpoint base64_decode (s : string) : option Buffer :=
  match s with
  | EmptyString => Some []
  | String c3 (String c2 (String c1 (String c0 rest))) =>
      match base64_value c3, base64_value c2 with
      | Some v3, Some v2 =>
          if Ascii.eqb c0 "=" then
            match rest with
            | EmptyString =>
                if Ascii.eqb c1 "=" then Some [low_byte ((v3 * 64 + v2) / 16)]
                else
                  match base64_value c1 with
                  | Some v1 =>
                      let w := ((v3 * 64 + v2) * 64 + v1)%N in
                      Some [low_byte (w / 1024); low_byte (w / 4)]
                  | None => None
                  end
            | _ => None
            end
          else
            match base64_value c1, base64_value c0, base64_decode rest with
            | Some v1, Some v0, Some bytes =>
                let w := (((v3 * 64 + v2) * 64 + v1) * 64 + v0)%N in
                Some (low_byte (w / 65536) :: low_byte (w / 256)
                        :: low_byte w :: bytes)
            | _, _, _ => None
            end
      | _, _ => None
      end
  | _ => None
  end.

(** ** A concrete runtime

    A small [Host] to run the SDK on: a table of files and a queue of canned
    answers, the way the test suite mocks [fetch]. Its number and date
    functions agree with Node on the inputs named in their comments, which
    are the only ones the examples use. *)
Module Sample.

Inductive Node : Type :=
| File (content : string)
| Directory.

Fixpoint find (files : list (string * Node)) (path : string) : option Node :=
  match files with
  | [] => None
  | (p, n) :: rest => if String.eqb p path then Some n else find rest path
  end.

Definition existsSync (files : list (string * Node)) (path : string) : bool :=
  match find files path with Some _ => true | None => false end.

Definition readFileSync (files : list (string * Node)) (path : string)
  : HostError + Buffer :=
  match find files path with
  | Some (File content) => inr (list_byte_of_string content)
  | Some Directory =>
      inl (mkHostError SystemError "EISDIR: illegal operation on a directory, read")
  | None =>
      inl (mkHostError SystemError "ENOENT: no such file or directory")
  end.

(** The n-th request gets the n-th answer; when the queue is used up the
    network fails. *)
Definition fetch_response (answers : list (HostError + Response))
    (sent : list Request) (_ : Request) : HostError + Response :=
  match answers !! length sent with
  | Some r => r
  | None => inl (mkHostError NetworkError "fetch failed")
  end.

Definition digits (n : N) : string := NilZero.string_of_uint (N.to_uint n).

Fixpoint strip_zeros (rev_digits : string) : string :=
  match rev_digits with
  | String "0" rest => strip_zeros rest
  | _ => rev_digits
  end.

Fixpoint reverse (s acc : string) : string :=
  match s with
  | EmptyString => acc
  | String c rest => reverse rest (String c acc)
  end.

Fixpoint zeros (n : nat) : string :=
  match n with
  | O => EmptyString
  | S n => String "0" (zeros n)
  end.

(** The digits after the point of [r / 2^k], for [r < 2^k]: those of
    [r * 5^k], on [k] places, without the zeros at the end. *)
Definition fraction (r : N) (k : N) : string :=
  let d := digits (r * 5 ^ k) in
  let padded := zeros (N.to_nat k - String.length d) ++ d in
  reverse (strip_zeros (reverse padded EmptyString)) EmptyString.

(** The exact decimal expansion of a double: what Node prints for zero and
    for a number from 10^-6 up to 10^21 (either sign) whose expansion has at
    most 15 significant digits. *)
Definition Number_toString (n : JsNumber) : string :=
  match n with
  | S754_nan => "NaN"
  | S754_infinity false => "Infinity"
  | S754_infinity true => "-Infinity"
  | S754_zero _ => "0"
  | S754_finite s m e =>
      (if s then "-" else "") ++
      match e with
      | Zneg k =>
          let q := (Npos m / 2 ^ Npos k)%N in
          let r := (Npos m mod 2 ^ Npos k)%N in
          digits q ++ (if (r =? 0)%N then "" else "." ++ fraction r (Npos k))
      | _ => digits (Npos m * 2 ^ Z.to_N e) ++ ""
      end
  end.

(** [Number(s)], exact on unsigned decimal integers, on the empty string and
    on text with no numeric reading at all. *)
Definition String_toNumber (s : string) : JsNumber :=
  match s with
  | EmptyString => zero
  | _ =>
      match NilEmpty.uint_of_string s with
      | Some d => Number_ofZ (Z.of_N (N.of_uint d))
      | None => S754_nan
      end
  end.

(** [TimeClip]: the time value of [new Date(n)]. *)
Definition TimeClip (n : JsNumber) : JsNumber :=
  match n with
  | S754_finite s m e =>
      let whole :=
        match e with
        | Zneg k => (Zpos m / 2 ^ Zpos k)%Z
        | _ => (Zpos m * 2 ^ e)%Z
        end in
      if (8640000000000000 <? whole)%Z then S754_nan
      else Number_ofZ (if s then - whole else whole)
  | S754_zero _ => zero
  | _ => S754_nan
  end.

(** The timestamps this runtime can read. Any other text is an invalid date. *)
Definition known_dates : list (string * Z) :=
  [("2024-01-01T12:00:00.000000Z", 1704110400000%Z);
   ("2024-01-01T12:00:00.000Z", 1704110400000%Z);
   ("1970-01-01T00:00:00.000Z", 0%Z)].

Fixpoint Date_parse (table : list (string * Z)) (s : string) : JsNumber :=
  match table with
  | [] => S754_nan
  | (t, ms) :: rest => if String.eqb t s then Number_ofZ ms else Date_parse rest s
  end.

Definition Date_new (v : JsPrimitive) : HostError + JsDate :=
  inr (mkDate
         match v with
         | JString s => Date_parse known_dates s
         | JNumber n => TimeClip n
         | JBool true => Number_ofZ 1
         | JBool false | JNull => zero
         | JUndefined => S754_nan
         end).

Definition is_alpha (c : ascii) : bool :=
  let n := nat_of_ascii (lower_ascii c) in (97 <=? n)%nat && (n <=? 122)%nat.

Definition is_scheme_char (c : ascii) : bool :=
  let n := nat_of_ascii c in
  is_alpha c || ((48 <=? n)%nat && (n <=? 57)%nat)
  || Ascii.eqb c "+" || Ascii.eqb c "-" || Ascii.eqb c ".".

Fixpoint scheme_rest (s : string) : bool :=
  match s with
  | EmptyString => false
  | String c rest =>
      if Ascii.eqb c ":" then true
      else is_scheme_char c && scheme_rest rest
  end.

(** A URL without a base needs a scheme. (The runtime's parser refuses more
    than this: what follows the scheme is not looked at here.) *)
Definition URL_new (s : string) : HostError + unit :=
  match s with
  | String c rest =>
      if is_alpha c && scheme_rest rest then inr tt
      else inl (mkHostError TypeError "Invalid URL")
  | EmptyString => inl (mkHostError TypeError "Invalid URL")
  end.

Definition quote : string := String (ascii_of_nat 34) EmptyString.

Fixpoint escape (s : string) : string :=
  match s with
  | EmptyString => EmptyString
  | String c rest =>
      (if Ascii.eqb c (ascii_of_nat 34) || Ascii.eqb c (ascii_of_nat 92)
       then String (ascii_of_nat 92) (String c EmptyString)
       else String c EmptyString) ++ escape rest
  end.

Fixpoint join (sep : string) (pieces : list string) : string :=
  match pieces with
  | [] => EmptyString
  | [p] => p
  | p :: rest => p ++ sep ++ join sep rest
  end.

(** [JSON.stringify], for text without control characters. [None] is
    [undefined]: such a member is left out of an object and is [null] in an
    array. *)
Fixpoint stringify (v : JsValue) : option string :=
  match v with
  | VPrim JUndefined => None
  | VPrim JNull => Some "null"
  | VPrim (JBool true) => Some "true"
  | VPrim (JBool false) => Some "false"
  | VPrim (JNumber (S754_nan as n)) | VPrim (JNumber (S754_infinity _ as n)) =>
      Some "null"
  | VPrim (JNumber n) => Some (Number_toString n)
  | VPrim (JString s) => Some (quote ++ escape s ++ quote)
  | VArray elements =>
      Some ("[" ++ join "," (map (fun e => default "null" (stringify e)) elements)
                ++ "]")
  | VObject members =>
      let member (kv : string * JsValue) : list string :=
        match stringify (snd kv) with
        | Some text => [quote ++ escape (fst kv) ++ quote ++ ":" ++ text]
        | None => []
        end in
      Some ("{" ++ join "," (concat (map member members)) ++ "}")
  | VIntrinsic ObjectPrototype => Some "{}"
  | VIntrinsic _ => None
  end.

Definition JSON_stringify (v : JsValue) : string :=
  default "undefined" (stringify v).

Lemma digits_nonempty (n : N) : digits n <> "".
Proof. unfold digits. destruct (N.to_uint n); discriminate. Qed.

Lemma Number_toString_nonempty (n : JsNumber) : Number_toString n <> "".
Proof.
  destruct n as [s|s| |s m e]; try destruct s; try discriminate.
  unfold Number_toString.
  destruct e; simpl; intros E;
    match type of E with
    | (digits ?x ++ _) = _ =>
        pose proof (digits_nonempty x); destruct (digits x);
        [congruence | discriminate]
    end.
Qed.

Definition host (files : list (string * Node))
    (answers : list (HostError + Response)) : Host :=
  Build_Host Number_toString Number_toString_nonempty String_toNumber
             Date_new URL_new JSON_stringify
             (existsSync files) (readFileSync files) (fetch_response answers).

End Sample.

(** ** Data to run on

    The data of the test suite ([src/__tests__]), for [Sample.host]. *)

Module Run.

Definition client : GeneratePDFs := connect "test-api-token".

Definition empty : World := mkWorld [] [].

Definition data_of (id : JsPrimitive) (status : string) : PdfData.t :=
  PdfData.mk id (JString "test.pdf") (JString status)
    (JString "https://api.generatepdfs.com/pdfs/123/download/token")
    (JString "2024-01-01T12:00:00.000000Z").

Definition pending_data : PdfData.t := data_of (JNumber (Number_ofZ 123)) "pending".

Definition completed_data : PdfData.t :=
  data_of (JNumber (Number_ofZ 123)) "completed".

(** [{ id: 123 }]: the other members are missing. *)
Definition only_id : PdfData.t :=
  PdfData.mk (JNumber (Number_ofZ 123)) JUndefined JUndefined JUndefined
             JUndefined.

Definition bad_date : PdfData.t :=
  PdfData.mk (JNumber (Number_ofZ 123)) (JString "test.pdf")
    (JString "completed")
    (JString "https://api.generatepdfs.com/pdfs/123/download/token")
    (JString "invalid-date-format").

(** The date the runtime reads in "2024-01-01T12:00:00.000000Z". *)
Definition noon : JsDate := mkDate (Number_ofZ 1704110400000).

(** A 200 answer whose body has this [data]. *)
Definition answer (d : PdfData.t) : HostError + Response :=
  inr {| ok := true; status := Number_ofZ 200; statusText := "OK";
         text := ""; json := inr (ApiResponse.mk (Some d));
         arrayBuffer := [] |}.

Definition not_found : Response :=
  {| ok := false; status := Number_ofZ 404; statusText := "Not Found";
     text := "no such document";
     json := inl (mkHostError SyntaxError "Unexpected token");
     arrayBuffer := list_byte_of_string "no such document" |}.

(** 1.5 *)
Definition one_and_a_half : JsNumber := binary_normalize 53 1024 3 (-1) false.

Definition offline : Host := Sample.host [] [].

(** A server with one answer ready. *)
Definition server (r : HostError + Response) : Host := Sample.host [] [r].

Definition pending_pdf : Pdf := @Pdf_of offline pending_data noon client.

Definition completed_pdf : Pdf := @Pdf_of offline completed_data noon client.

Definition site : list (string * Sample.Node) :=
  [("/site/index.html", Sample.File "<html><body>Test</body></html>");
   ("/site/style.css", Sample.File "body { color: red; }");
   ("/site/logo.PNG", Sample.File "fake-image-content");
   ("/site/photo.jpg", Sample.File "jpeg bytes");
   ("/site/shot.constructor", Sample.File "png bytes");
   ("/site/assets", Sample.Directory)].

Definition images : list ImageInput.t :=
  [ImageInput.mk "logo.png" "/site/logo.PNG" None;
   ImageInput.mk "" "/site/photo.jpg" None;
   ImageInput.mk "gone.gif" "/site/gone.gif" None;
   ImageInput.mk "photo" "/site/photo.jpg" (Some "image/pjpeg");
   ImageInput.mk "nowhere" "" (Some "image/png")].

Definition invalid_images : list ImageInput.t :=
  [ImageInput.mk "" "/site/photo.jpg" None;
   ImageInput.mk "gone.gif" "/site/gone.gif" None].

(** A 200 answer to a download: the bytes of the document. *)
Definition delivered : Response :=
  {| ok := true; status := Number_ofZ 200; statusText := "OK";
     text := "%PDF-1.4";
     json := inl (mkHostError SyntaxError "Unexpected token");
     arrayBuffer := list_byte_of_string "%PDF-1.4" |}.

(** A 200 answer whose body has no [data]. *)
Definition no_data : Response :=
  {| ok := true; status := Number_ofZ 200; statusText := "OK";
     text := "{}"; json := inr (ApiResponse.mk None);
     arrayBuffer := list_byte_of_string "{}" |}.

(** A 200 answer with the completed document of the tests. *)
Definition completed_answer : Response :=
  {| ok := true; status := Number_ofZ 200; statusText := "OK";
     text := ""; json := inr (ApiResponse.mk (Some completed_data));
     arrayBuffer := [] |}.

(** A disk on which the paths of [read_only] cannot be written. *)
Definition disk (read_only : list string) : Disk :=
  {| writeFileSync path _ :=
       if existsb (String.eqb path) read_only
       then inl (mkHostError SystemError "EACCES: permission denied, open")
       else inr tt |}.

End Run.

Import Run.

(** * Properties *)

(** ** The monad *)

Lemma bind_lift {A B : Type} (c : Completion A) (k : A -> M B) (w : World) :
  bind (lift c) k w = match c with Return a => k a w | Throw e => (Throw e, w) end.
Proof. destruct c; reflexivity. Qed.

Lemma bind_run {A B : Type} (c : M A) (k : A -> M B) (w w' : World) (a : A) :
  c w = (Return a, w') -> bind c k w = k a w'.
Proof. intros E. unfold bind. rewrite E. reflexivity. Qed.

Lemma read_run `{Host} {A : Type} (this : PdfRef) (field : Pdf -> A)
    (w : World) (o : Pdf) :
  heap w !! this = Some o -> read this field w = (Return (field o), w).
Proof. intros E. unfold read. rewrite E. reflexivity. Qed.

(** Steps over [field <- read this f ;; ...] when [this] is known to be [o]. *)
Ltac step_read E :=
  rewrite (bind_run _ _ _ _ _ (read_run _ _ _ _ E)).

(** ** [Pdf.fromArray] *)

Section FromArray.
Context `{Host}.

Lemma complete_false (data : PdfData.t) :
  complete data = false <->
  negb (ToBoolean (PdfData.id data))
  || negb (ToBoolean (PdfData.name data))
  || negb (ToBoolean (PdfData.status data))
  || negb (ToBoolean (PdfData.download_url data))
  || negb (ToBoolean (PdfData.created_at data)) = true.
Proof.
  unfold complete.
  destruct (ToBoolean (PdfData.id data)), (ToBoolean (PdfData.name data)),
    (ToBoolean (PdfData.status data)), (ToBoolean (PdfData.download_url data)),
    (ToBoolean (PdfData.created_at data)); simpl; split; congruence.
Qed.

(** What [fromArray] does, the [try]/[catch] resolved. *)
Lemma fromArray_run (data : PdfData.t) (client : GeneratePDFs) (w : World) :
  fromArray data client w =
  if complete data then
    match timestamp (PdfData.created_at data) with
    | Some createdAt => alloc (Pdf_of data createdAt client) w
    | None =>
        (Throw (InvalidArgumentException
                  ("Invalid created_at format: "
                     ++ ToString (PdfData.created_at data))), w)
    end
  else (Throw (InvalidArgumentException "Invalid PDF data structure"), w).
Proof.
  unfold fromArray.
  destruct (complete data) eqn:C.
  - assert (N : complete data <> false) by congruence.
    rewrite complete_false in N. apply not_true_is_false in N. rewrite N.
    unfold timestamp, bind, try_catch, lift.
    destruct (Date_new (PdfData.created_at data)) as [e | d]; simpl.
    + reflexivity.
    + destruct (isNaN (getTime d)); reflexivity.
  - apply complete_false in C. rewrite C. reflexivity.
Qed.

(** C1. [Pdf.fromArray] returns a handle exactly when the five required
    members are present and truthy and [created_at] parses to a valid
    timestamp; the handle is a new object holding the coerced members. With a
    member missing or falsy it throws [InvalidArgumentException] "Invalid PDF
    data structure"; with complete data whose [created_at] does not parse
    (the date is invalid, or building it threw) it throws one
    [InvalidArgumentException] whose message is "Invalid created_at format: "
    and the raw value, not a wrapped one. In both failures nothing else
    happens. *)
Theorem fromArray_succeeds_exactly_on_valid_data
    (data : PdfData.t) (client : GeneratePDFs) (w : World) :
  ((exists handle w', fromArray data client w = (Return handle, w')) <->
   complete data = true /\ is_Some (timestamp (PdfData.created_at data)))
  /\ (forall createdAt,
        complete data = true ->
        timestamp (PdfData.created_at data) = Some createdAt ->
        exists handle w',
          fromArray data client w = (Return handle, w')
          /\ heap w !! handle = None
          /\ heap w' !! handle = Some (Pdf_of data createdAt client)
          /\ requests w' = requests w)
  /\ (complete data = false ->
        fromArray data client w =
        (Throw (InvalidArgumentException "Invalid PDF data structure"), w))
  /\ (complete data = true ->
        timestamp (PdfData.created_at data) = None ->
        fromArray data client w =
        (Throw (InvalidArgumentException
                  ("Invalid created_at format: "
                     ++ ToString (PdfData.created_at data))), w)).
Proof.
  rewrite fromArray_run.
  destruct (complete data) eqn:C;
    [destruct (timestamp (PdfData.created_at data)) as [d|] eqn:T|].
  - (* complete data, a valid date *)
    assert (S : exists handle w',
               alloc (Pdf_of data d client) w = (Return handle, w')
               /\ heap w !! handle = None
               /\ heap w' !! handle = Some (Pdf_of data d client)
               /\ requests w' = requests w).
    { eexists _, _. split; [reflexivity|]. simpl. split; [|split].
      - apply lookup_ge_None_2. lia.
      - apply list_lookup_middle. reflexivity.
      - reflexivity. }
    split; [|split; [|split]].
    + split; [intros _; split; [reflexivity | eauto] |].
      intros _. destruct S as (h & w' & E & _). eauto.
    + intros createdAt _ E. injection E as <-. exact S.
    + discriminate.
    + discriminate.
  - (* complete data, no valid date *)
    split; [|split; [|split]].
    + split; [intros (h & w' & E); discriminate E |].
      intros [_ [d E]]. discriminate E.
    + discriminate.
    + discriminate.
    + reflexivity.
  - (* a member missing or falsy *)
    split; [|split; [|split]].
    + split; [intros (h & w' & E); discriminate E |].
      intros [E _]. discriminate E.
    + discriminate.
    + reflexivity.
    + discriminate.
Qed.

End FromArray.

(** ** Readiness and download *)

Section Ready.
Context `{Host}.

(** C2. On a handle, [isReady()] is true if and only if the status is the
    string "completed", compared as it is; [download()] on a handle that is
    not ready throws [RuntimeException] "PDF is not ready yet. Current
    status: " and the status, and neither sends a request nor changes
    anything; on a ready handle it is the client's [downloadPdf] on the
    handle's own download URL. *)
Theorem download_is_gated_by_isReady (this : PdfRef) (o : Pdf) (w : World)
    (Hthis : heap w !! this = Some o) :
  (exists ready,
      isReady this w = (Return ready, w)
      /\ (ready = true <-> priv_status o = "completed"))
  /\ (priv_status o <> "completed" ->
        download this w =
        (Throw (RuntimeException
                  ("PDF is not ready yet. Current status: " ++ priv_status o)),
         w))
  /\ (priv_status o = "completed" ->
        download this w = downloadPdf (priv_client o) (priv_downloadUrl o) w).
Proof.
  assert (R : isReady this w
              = (Return (String.eqb (priv_status o) "completed"), w)).
  { unfold isReady. step_read Hthis. reflexivity. }
  split; [|split].
  - eexists. split; [exact R|]. apply String.eqb_eq.
  - intros N. apply String.eqb_neq in N.
    unfold download. rewrite (bind_run _ _ _ _ _ R), N. simpl.
    step_read Hthis. reflexivity.
  - intros E. apply String.eqb_eq in E.
    unfold download. rewrite (bind_run _ _ _ _ _ R), E. simpl.
    do 2 step_read Hthis. reflexivity.
Qed.

End Ready.

(** ** Images *)


Lemma lower_ascii_not_capital (c : ascii) : is_capital (lower_ascii c) = false.
Proof. destruct c as [[] [] [] [] [] [] [] []]; reflexivity. Qed.

Lemma toLowerCase_no_capital (s : string) : has_capital (toLowerCase s) = false.
Proof.
  induction s as [|c s IH]; simpl; [reflexivity|].
  rewrite lower_ascii_not_capital, IH. reflexivity.
Qed.

(** In lower case, only "constructor" and "__proto__" are inherited. *)
Lemma Object_prototype_lower (s : string) :
  inherited_name (toLowerCase s) = false ->
  Object_prototype (toLowerCase s) = None.
Proof.
  unfold inherited_name, Object_prototype. intros E.
  apply orb_false_elim in E as [-> ->].
  destruct (existsb _ _) eqn:X; [|reflexivity].
  apply existsb_exists in X as (name & Hin & Heq).
  apply String.eqb_eq in Heq. subst name.
  pose proof (toLowerCase_no_capital s) as C.
  simpl in Hin.
  repeat (destruct Hin as [E | Hin]; [rewrite <- E in C; discriminate C|]).
  destruct Hin.
Qed.

Section ImagesFacts.
Context `{Host}.

(** [#detectMimeType] on a path whose extension is not an inherited name. *)
Lemma detectMimeType_table (filePath : string) :
  inherited_name (extension filePath) = false ->
  detectMimeType filePath = VString (table_mime (extension filePath)).
Proof.
  unfold detectMimeType, extension, table_mime, Get.
  destruct (pop (split "." filePath)) as [piece|] eqn:P.
  - intros E. destruct (own_property mimeTypes (toLowerCase piece)); [reflexivity|].
    rewrite (Object_prototype_lower _ E). reflexivity.
  - intros _. reflexivity.
Qed.

(** The loop, when every file it opens can be read. *)
Lemma processImages_from_entries (images : list ImageInput.t) :
  Forall (fun image => kept image = true ->
            can_read (ImageInput.path image) = true) images ->
  forall processed,
    processImages_from processed images =
    Return (processed ++ map entry (List.filter kept images))%list.
Proof.
  induction 1 as [|image rest Himage _ IH]; intros processed; simpl.
  - rewrite app_nil_r. reflexivity.
  - unfold kept in *.
    destruct (truthy (ImageInput.path image)); simpl;
      [|rewrite andb_false_r; apply IH].
    destruct (truthy (ImageInput.name image)); simpl; [|apply IH].
    destruct (existsSync (ImageInput.path image)); simpl; [|apply IH].
    specialize (Himage eq_refl). unfold can_read in Himage.
    destruct (readFileSync (ImageInput.path image)) as [e|content] eqn:F;
      [discriminate Himage|]. simpl.
    rewrite IH, <- app_assoc. simpl. do 3 f_equal.
    unfold entry, file_bytes. rewrite F. reflexivity.
Qed.

Lemma entry_triple (image : ImageInput.t) :
  (ImageInput.mimeType image = None ->
   inherited_name (extension (ImageInput.path image)) = false) ->
  entry image = triple image.
Proof.
  unfold entry, triple, resolved_mime. intros X.
  destruct (ImageInput.mimeType image) as [m|]; [reflexivity|].
  rewrite (detectMimeType_table _ (X eq_refl)). reflexivity.
Qed.

(** X1, what holds of C3. [#processImages] skips exactly the entries
    whose name is empty, whose path is empty or whose path does not exist.
    When the file of every other entry can be read, and no entry without a
    MIME type of its own has an extension that object literals inherit
    ("constructor", "__proto__"), the result is the list of the triples of
    the other entries, in the order of the input: the name, the base64 text
    of the file, and the MIME type, which is the caller's when there is one,
    else the table's for the lower-case extension, else
    application/octet-stream. *)
Theorem processImages_maps_the_existing_files_in_order
    (images : list ImageInput.t)
    (Hfiles : Forall (fun image => kept image = true ->
                 can_read (ImageInput.path image) = true
                 /\ (ImageInput.mimeType image = None ->
                     inherited_name (extension (ImageInput.path image)) = false))
              images) :
  processImages images = Return (map triple (List.filter kept images))
  /\ (forall image,
        kept image = false <->
        ImageInput.name image = "" \/ ImageInput.path image = ""
        \/ existsSync (ImageInput.path image) = false)
  /\ table_mime "jpg" = "image/jpeg" /\ table_mime "jpeg" = "image/jpeg"
  /\ table_mime "png" = "image/png" /\ table_mime "gif" = "image/gif"
  /\ table_mime "webp" = "image/webp" /\ table_mime "svg" = "image/svg+xml"
  /\ (forall ext, own_property mimeTypes ext = None ->
        table_mime ext = "application/octet-stream").
Proof.
  split; [|split].
  - unfold processImages. rewrite processImages_from_entries.
    + simpl. f_equal. apply map_ext_in. intros image Hin.
      apply filter_In in Hin as [Hin K].
      rewrite Forall_forall in Hfiles. apply entry_triple.
      apply (Hfiles image); [apply list_elem_of_In; exact Hin | exact K].
    + eapply Forall_impl; [exact Hfiles|]. intros image F K. apply (F K).
  - intros image. unfold kept, truthy.
    destruct (ImageInput.name image), (ImageInput.path image),
      (existsSync _); simpl; split; intros E; try reflexivity; try discriminate;
      try tauto; destruct E as [E|[E|E]]; discriminate.
  - repeat split; try reflexivity.
    intros ext E. unfold table_mime. rewrite E. reflexivity.
Qed.

End ImagesFacts.

(** ** HTTP calls *)

Section Calls.
Context `{Host}.

Lemma makeRequest_run (this : GeneratePDFs) (endpoint : string)
    (data : JsValue) (w : World) :
  makeRequest this endpoint data w =
  (match fetch_response (requests w) (POST this endpoint data) with
   | inl e => Throw (Thrown e)
   | inr r => if ok r then of_host (json r) else Throw (api_failure r)
   end, after (POST this endpoint data) w).
Proof.
  unfold makeRequest, bind, fetch, POST, after, api_failure. simpl.
  destruct (fetch_response _ _) as [e|r]; simpl; [reflexivity|].
  destruct (ok r); reflexivity.
Qed.

Lemma makeGetRequest_run (this : GeneratePDFs) (endpoint : string) (w : World) :
  makeGetRequest this endpoint w =
  (match fetch_response (requests w) (GET this (baseUrl this ++ endpoint)) with
   | inl e => Throw (Thrown e)
   | inr r => if ok r then of_host (json r) else Throw (api_failure r)
   end, after (GET this (baseUrl this ++ endpoint)) w).
Proof.
  unfold makeGetRequest, bind, fetch, GET, after, api_failure. simpl.
  destruct (fetch_response _ _) as [e|r]; simpl; [reflexivity|].
  destruct (ok r); reflexivity.
Qed.

Lemma downloadPdf_run (this : GeneratePDFs) (downloadUrl : string) (w : World) :
  downloadPdf this downloadUrl w =
  (match fetch_response (requests w) (GET this downloadUrl) with
   | inl e => Throw (Thrown e)
   | inr r => if ok r then Return (arrayBuffer r) else Throw (download_failure r)
   end, after (GET this downloadUrl) w).
Proof.
  unfold downloadPdf, bind, fetch, GET, after, download_failure. simpl.
  destruct (fetch_response _ _) as [e|r]; simpl; [reflexivity|].
  destruct (ok r); reflexivity.
Qed.

(** [fromArray] makes at most one object and sends nothing. *)
Lemma fromArray_frame (d : PdfData.t) (this : GeneratePDFs) (w : World) :
  requests (snd (fromArray d this w)) = requests w
  /\ ((exists e, fromArray d this w = (Throw e, w))
      \/ (exists createdAt,
            complete d = true
            /\ timestamp (PdfData.created_at d) = Some createdAt
            /\ fromArray d this w =
               (Return (length (heap w)),
                mkWorld (heap w ++ [Pdf_of d createdAt this])%list (requests w)))).
Proof.
  rewrite fromArray_run.
  destruct (complete d); [|split; [reflexivity | left; eauto]].
  destruct (timestamp _) as [createdAt|]; [|split; [reflexivity | left; eauto]].
  split; [reflexivity | right; eauto].
Qed.

Lemma handle_of_frame (this : GeneratePDFs) (response : ApiResponse.t) (w : World) :
  requests (snd (handle_of this response w)) = requests w
  /\ ((exists e, handle_of this response w = (Throw e, w))
      \/ (exists d createdAt,
            ApiResponse.data response = Some d
            /\ complete d = true
            /\ timestamp (PdfData.created_at d) = Some createdAt
            /\ handle_of this response w =
               (Return (length (heap w)),
                mkWorld (heap w ++ [Pdf_of d createdAt this])%list (requests w)))).
Proof.
  unfold handle_of. destruct (ApiResponse.data response) as [d|].
  - destruct (fromArray_frame d this w) as [R [E | (c & C & T & E)]].
    + split; [exact R | left; exact E].
    + split; [exact R | right; eauto 8].
  - split; [reflexivity | left; eauto].
Qed.

(** After the HTTP call, an operation ends in [handle_of] or in the error
    of the call, and has sent this one request. *)
Lemma call_then_handle (this : GeneratePDFs) (call : M ApiResponse.t)
    (request : Request) (w : World) (outcome : Completion ApiResponse.t) :
  call w = (outcome, after request w) ->
  requests (snd (bind call (handle_of this) w)) = request :: requests w
  /\ ((exists e, bind call (handle_of this) w = (Throw e, after request w))
      \/ (exists response d createdAt,
            outcome = Return response
            /\ ApiResponse.data response = Some d
            /\ complete d = true
            /\ timestamp (PdfData.created_at d) = Some createdAt
            /\ bind call (handle_of this) w =
               (Return (length (heap w)),
                mkWorld (heap w ++ [Pdf_of d createdAt this])%list
                        (request :: requests w)))).
Proof.
  intros E. unfold bind. rewrite E.
  destruct outcome as [response|e]; [|split; [reflexivity | left; eauto]].
  destruct (handle_of_frame this response (after request w))
    as [R [[e X] | (d & c & D & C & T & X)]].
  - rewrite X. split; [reflexivity | left; eauto].
  - rewrite X. split; [reflexivity | right]. exists response, d, c. auto.
Qed.

End Calls.

(** ** The three operations that return a handle *)

Section Operations.
Context `{Host}.

Lemma getPdf_run (this : GeneratePDFs) (id : JsNumber) (w : World) :
  le_zero id = false ->
  getPdf this id w =
  bind (makeGetRequest this ("/pdfs/" ++ Number_toString id)) (handle_of this) w.
Proof. intros E. unfold getPdf. rewrite E. reflexivity. Qed.

Lemma generateFromUrl_run (this : GeneratePDFs) (url : string) (w : World) :
  generateFromUrl this url w =
  match URL_new url with
  | inl _ => (Throw (InvalidArgumentException ("Invalid URL: " ++ url)), w)
  | inr _ =>
      bind (makeRequest this "/pdfs/generate" (VObject [("url", VString url)]))
           (handle_of this) w
  end.
Proof.
  unfold generateFromUrl, bind at 1, try_catch, lift.
  destruct (URL_new url); reflexivity.
Qed.

Lemma generateFromHtml_run (this : GeneratePDFs) (htmlPath : string)
    (cssPath : option string) (images : list ImageInput.t) (w : World) :
  generateFromHtml this htmlPath cssPath images w =
  match html_payload htmlPath cssPath images with
  | Throw e => (Throw e, w)
  | Return data =>
      bind (makeRequest this "/pdfs/generate" (VObject data)) (handle_of this) w
  end.
Proof.
  unfold generateFromHtml, html_payload.
  destruct (negb (existsSync htmlPath)); [reflexivity|].
  rewrite bind_lift.
  destruct (of_host (readFileSync htmlPath)) as [htmlContent|e]; [|reflexivity].
  destruct cssPath as [cssPath|].
  - destruct (negb (existsSync cssPath)); [reflexivity|].
    unfold bind at 1. rewrite bind_lift.
    destruct (of_host (readFileSync cssPath)) as [cssContent|e]; [|reflexivity].
    simpl. destruct (0 <? length images)%nat; [|reflexivity].
    unfold bind at 1. rewrite bind_lift.
    destruct (processImages images); reflexivity.
  - unfold bind at 1. simpl.
    destruct (0 <? length images)%nat; [|reflexivity].
    unfold bind at 1. rewrite bind_lift.
    destruct (processImages images); reflexivity.
Qed.

Lemma positive_integer_above_zero (id : JsNumber) :
  is_positive_integer id = true -> le_zero id = false.
Proof. destruct id as [s|s| |[] m e]; simpl; intros E; (discriminate E || reflexivity). Qed.

(** C5, as the code has it. [getPdf] throws [InvalidArgumentException]
    "Invalid PDF ID: " and the id, sending nothing, exactly when [id <= 0]:
    for 0 and -1, and for every negative number. For every other number it
    sends a GET to /pdfs/ and the id: for every positive integer, and also
    for a positive number that is not an integer and for NaN. *)
Theorem getPdf_rejects_ids_at_most_zero
    (this : GeneratePDFs) (id : JsNumber) (w : World) :
  (le_zero id = true ->
     getPdf this id w =
     (Throw (InvalidArgumentException ("Invalid PDF ID: " ++ Number_toString id)),
      w))
  /\ (le_zero id = false ->
        let request := GET this (baseUrl this ++ "/pdfs/" ++ Number_toString id) in
        request_method request = "GET"
        /\ requests (snd (getPdf this id w)) = request :: requests w)
  /\ (is_positive_integer id = true -> le_zero id = false)
  /\ le_zero (Number_ofZ 0) = true
  /\ le_zero (Number_ofZ (-1)) = true
  /\ le_zero S754_nan = false.
Proof.
  split; [|split; [|split; [|repeat split]]].
  - intros E. unfold getPdf. rewrite E. reflexivity.
  - intros E. split; [reflexivity|].
    rewrite (getPdf_run _ _ _ E).
    eapply call_then_handle. apply makeGetRequest_run.
  - apply positive_integer_above_zero.
Qed.

(** C8. [generateFromUrl] throws [InvalidArgumentException] "Invalid URL: "
    and the url, sending nothing, whenever the url does not parse; whenever
    it parses, the one request the operation sends is the POST of the payload
    [{ url }] to the generation endpoint: nothing is sent to the url. *)
Theorem generateFromUrl_checks_the_syntax_only
    (this : GeneratePDFs) (url : string) (w : World) :
  (forall e, URL_new url = inl e ->
     generateFromUrl this url w =
     (Throw (InvalidArgumentException ("Invalid URL: " ++ url)), w))
  /\ (forall parsed, URL_new url = inr parsed ->
        let payload := VObject [("url", VString url)] in
        generateFromUrl this url w =
        bind (makeRequest this "/pdfs/generate" payload) (handle_of this) w
        /\ requests (snd (generateFromUrl this url w)) =
           POST this "/pdfs/generate" payload :: requests w
        /\ request_method (POST this "/pdfs/generate" payload) = "POST"
        /\ request_url (POST this "/pdfs/generate" payload) =
           baseUrl this ++ "/pdfs/generate").
Proof.
  rewrite generateFromUrl_run. split.
  - intros e E. rewrite E. reflexivity.
  - intros parsed E. rewrite E. simpl. split; [reflexivity|].
    split; [|split; reflexivity].
    eapply call_then_handle. apply makeRequest_run.
Qed.

(** C6, as the code has it. When the answer to its request has a status
    that is not a success, [generateFromHtml], [generateFromUrl] and [getPdf]
    throw a plain [Error] whose message holds the status code, the status
    text and the body text; [downloadPdf] throws a plain [Error] whose
    message holds the status text only. *)
Theorem failed_call_error_carries_the_response
    (this : GeneratePDFs) (r : Response) (w : World) (Hfail : ok r = false) :
  (forall htmlPath cssPath images payload,
     html_payload htmlPath cssPath images = Return payload ->
     fetch_response (requests w) (POST this "/pdfs/generate" (VObject payload))
       = inr r ->
     generateFromHtml this htmlPath cssPath images w =
     (Throw (api_failure r),
      after (POST this "/pdfs/generate" (VObject payload)) w))
  /\ (forall url parsed,
        URL_new url = inr parsed ->
        fetch_response (requests w)
          (POST this "/pdfs/generate" (VObject [("url", VString url)])) = inr r ->
        generateFromUrl this url w =
        (Throw (api_failure r),
         after (POST this "/pdfs/generate" (VObject [("url", VString url)])) w))
  /\ (forall id,
        le_zero id = false ->
        fetch_response (requests w)
          (GET this (baseUrl this ++ "/pdfs/" ++ Number_toString id)) = inr r ->
        getPdf this id w =
        (Throw (api_failure r),
         after (GET this (baseUrl this ++ "/pdfs/" ++ Number_toString id)) w))
  /\ (forall downloadUrl,
        fetch_response (requests w) (GET this downloadUrl) = inr r ->
        downloadPdf this downloadUrl w =
        (Throw (download_failure r), after (GET this downloadUrl) w))
  /\ api_failure r =
     Error ("API request failed: " ++ Number_toString (status r) ++ " "
              ++ statusText r ++ " - " ++ text r)
  /\ download_failure r = Error ("Failed to download PDF: " ++ statusText r).
Proof.
  split; [|split; [|split; [|split; [|split; reflexivity]]]].
  - intros htmlPath cssPath images payload P F.
    rewrite generateFromHtml_run, P. unfold bind.
    rewrite makeRequest_run, F, Hfail. reflexivity.
  - intros url parsed U F.
    rewrite generateFromUrl_run, U. unfold bind.
    rewrite makeRequest_run, F, Hfail. reflexivity.
  - intros id I F.
    rewrite (getPdf_run _ _ _ I). unfold bind.
    rewrite makeGetRequest_run, F, Hfail. reflexivity.
  - intros downloadUrl F.
    rewrite downloadPdf_run, F, Hfail. reflexivity.
Qed.

End Operations.

(** ** [generateFromHtml]: the files *)

Section Html.
Context `{Host}.

(** The payload: the images are added to what the HTML and CSS files give. *)
Lemma html_payload_images (htmlPath : string) (cssPath : option string)
    (images : list ImageInput.t) (base : list (string * JsValue)) :
  html_payload htmlPath cssPath [] = Return base ->
  images <> [] ->
  html_payload htmlPath cssPath images =
  match processImages images with
  | Throw e => Throw e
  | Return processed =>
      Return (base ++ [("images", VArray (ProcessedImage.literal <$> processed))])%list
  end.
Proof.
  unfold html_payload. intros B N.
  destruct (negb (existsSync htmlPath)); [discriminate B|].
  destruct (of_host (readFileSync htmlPath)) as [htmlContent|e]; [|discriminate B].
  match goal with
  | |- match ?c with _ => _ end = _ => destruct c as [d|e]; [|discriminate B]
  end.
  simpl in B. injection B as ->.
  destruct images as [|image rest]; [congruence|]. reflexivity.
Qed.

(** The objects attached are the object literals of the entries. *)
Lemma literal_entries (images : list ImageInput.t) :
  ProcessedImage.literal <$> map entry images =
  map (fun image =>
         VObject [("name", VString (ImageInput.name image));
                  ("content",
                   VString (base64 (file_bytes (ImageInput.path image))));
                  ("mime_type",
                   match ImageInput.mimeType image with
                   | Some m => VString m
                   | None => detectMimeType (ImageInput.path image)
                   end)])
      images.
Proof.
  induction images as [|image rest IH]; simpl; [reflexivity|].
  rewrite <- IH. reflexivity.
Qed.

Lemma opens_readable (path : string) :
  opens path = true ->
  existsSync path = true /\ readFileSync path = inr (file_bytes path).
Proof.
  unfold opens, can_read, file_bytes. intros O.
  apply andb_prop in O as [E R]. split; [exact E|].
  destruct (readFileSync path); [discriminate R | reflexivity].
Qed.

(** X16, what holds of C4. When [generateFromHtml] is given one or more
    images, with an HTML file and a CSS file that open, the entries that
    fail the check of [#processImages] (no name, no path, or a path that
    does not exist) are left out and the request is sent all the same: if
    the files of the other entries can be read, the payload's [images] is the
    array of the objects [{ name, content, mime_type }] of these entries, in
    the order of the input, [content] being the bytes of the file in base64
    and [mime_type] the caller's or what [#detectMimeType] answers. When
    every entry fails the check this array is empty and the request is sent
    as well. *)
Theorem generateFromHtml_drops_the_invalid_images
    (this : GeneratePDFs) (htmlPath : string) (cssPath : option string)
    (images : list ImageInput.t) (w : World)
    (Hhtml : opens htmlPath = true)
    (Hcss : match cssPath with Some css => opens css | None => true end = true)
    (Hsome : images <> [])
    (Hread : Forall (fun image => kept image = true ->
                       can_read (ImageInput.path image) = true) images) :
  let payload :=
    VObject ((("html", VString (base64 (file_bytes htmlPath)))
                :: match cssPath with
                   | Some css => [("css", VString (base64 (file_bytes css)))]
                   | None => []
                   end
                ++ [("images", VArray (attached images))])%list) in
  generateFromHtml this htmlPath cssPath images w =
    bind (makeRequest this "/pdfs/generate" payload) (handle_of this) w
  /\ requests (snd (generateFromHtml this htmlPath cssPath images w)) =
     POST this "/pdfs/generate" payload :: requests w
  /\ (Forall (fun image => kept image = false) images -> attached images = []).
Proof.
  intros payload.
  assert (B : html_payload htmlPath cssPath [] =
              Return ((("html", VString (base64 (file_bytes htmlPath)))
                         :: match cssPath with
                            | Some css =>
                                [("css", VString (base64 (file_bytes css)))]
                            | None => []
                            end)%list)).
  { unfold html_payload. apply opens_readable in Hhtml as [-> ->]. simpl.
    destruct cssPath as [css|]; [|reflexivity].
    apply opens_readable in Hcss as [-> ->]. reflexivity. }
  assert (G : generateFromHtml this htmlPath cssPath images w =
              bind (makeRequest this "/pdfs/generate" payload) (handle_of this) w).
  { rewrite generateFromHtml_run, (html_payload_images _ _ _ _ B Hsome).
    unfold processImages. rewrite (processImages_from_entries images Hread).
    simpl app. rewrite literal_entries. reflexivity. }
  split; [exact G|]. split.
  - rewrite G. eapply call_then_handle. apply makeRequest_run.
  - intros I. unfold attached.
    assert (E : List.filter kept images = []); [|rewrite E; reflexivity].
    destruct (List.filter kept images) as [|image rest] eqn:F; [reflexivity|].
    assert (X : In image (List.filter kept images)) by (rewrite F; left; reflexivity).
    apply filter_In in X as [X K]. rewrite Forall_forall in I.
    rewrite (I image) in K; [discriminate K | apply list_elem_of_In; exact X].
Qed.

(** X2, what holds of C7: what [generateFromHtml] asks of its files, said
    with [existsSync]. A path that does not exist is refused with
    [InvalidArgumentException], the HTML one first, before anything is sent;
    when the paths exist and the files can be read, the request sent has a
    payload whose first members are [html] and, if a CSS path is given,
    [css], the bytes of the files in base64, followed by [images] when
    images are given and by nothing else. *)
Theorem generateFromHtml_checks_that_the_paths_exist
    (this : GeneratePDFs) (htmlPath : string) (cssPath : option string)
    (images : list ImageInput.t) (w : World) :
  (existsSync htmlPath = false ->
     generateFromHtml this htmlPath cssPath images w =
     (Throw (InvalidArgumentException
               ("HTML file not found or not readable: " ++ htmlPath)), w))
  /\ (forall css,
        readable htmlPath -> cssPath = Some css -> existsSync css = false ->
        generateFromHtml this htmlPath cssPath images w =
        (Throw (InvalidArgumentException
                  ("CSS file not found or not readable: " ++ css)), w))
  /\ (readable htmlPath ->
      (forall css, cssPath = Some css -> readable css) ->
      Forall (fun image => kept image = true ->
                can_read (ImageInput.path image) = true) images ->
      requests (snd (generateFromHtml this htmlPath cssPath images w)) =
      POST this "/pdfs/generate"
        (VObject ((("html", VString (base64 (file_bytes htmlPath)))
                     :: match cssPath with
                        | Some css =>
                            [("css", VString (base64 (file_bytes css)))]
                        | None => []
                        end
                     ++ if (0 <? length images)%nat
                        then [("images", VArray (attached images))]
                        else [])%list))
      :: requests w).
Proof.
  split; [|split].
  - intros E. rewrite generateFromHtml_run. unfold html_payload.
    rewrite E. reflexivity.
  - intros css [Eh [content Rh]] -> Ec. rewrite generateFromHtml_run.
    unfold html_payload. rewrite Eh, Rh, Ec. reflexivity.
  - intros [Eh [content Rh]] Hcss Hread.
    assert (G : forall data,
               requests (snd (bind (makeRequest this "/pdfs/generate" (VObject data))
                                   (handle_of this) w)) =
               POST this "/pdfs/generate" (VObject data) :: requests w).
    { intros data. eapply call_then_handle. apply makeRequest_run. }
    assert (I : processImages images = Return (map entry (List.filter kept images)))
      by (apply (processImages_from_entries images Hread [])).
    rewrite generateFromHtml_run. unfold html_payload, file_bytes.
    rewrite Eh, Rh. simpl. destruct cssPath as [css|].
    + destruct (Hcss css eq_refl) as [Ec [cssContent Rc]]. rewrite Ec, Rc. simpl.
      destruct (0 <? length images)%nat.
      * rewrite I, G, literal_entries. reflexivity.
      * rewrite G. reflexivity.
    + destruct (0 <? length images)%nat.
      * rewrite I, G, literal_entries. reflexivity.
      * rewrite G. reflexivity.
Qed.

End Html.

(** ** Handles *)

Section Handles.
Context `{Host}.

(** The object a successful call makes, and where. *)
Lemma call_returns (this : GeneratePDFs) (call : M ApiResponse.t)
    (request : Request) (w w' : World) (outcome : Completion ApiResponse.t)
    (handle : PdfRef) :
  call w = (outcome, after request w) ->
  bind call (handle_of this) w = (Return handle, w') ->
  exists d createdAt,
    complete d = true
    /\ timestamp (PdfData.created_at d) = Some createdAt
    /\ handle = length (heap w)
    /\ w' = mkWorld (heap w ++ [Pdf_of d createdAt this])%list
                    (request :: requests w).
Proof.
  intros C R.
  destruct (call_then_handle this call request w outcome C)
    as [_ [[e X] | (response & d & c & _ & _ & K & T & X)]];
    rewrite X in R; [discriminate R|].
  injection R as <- <-. eauto 6.
Qed.

Lemma getPdf_returns (this : GeneratePDFs) (id : JsNumber) (w w' : World)
    (handle : PdfRef) :
  getPdf this id w = (Return handle, w') ->
  exists d createdAt request,
    complete d = true
    /\ timestamp (PdfData.created_at d) = Some createdAt
    /\ handle = length (heap w)
    /\ w' = mkWorld (heap w ++ [Pdf_of d createdAt this])%list
                    (request :: requests w).
Proof.
  destruct (le_zero id) eqn:Z.
  - unfold getPdf. rewrite Z. discriminate.
  - rewrite (getPdf_run _ _ _ Z). intros R.
    destruct (call_returns _ _ _ _ _ _ _ (makeGetRequest_run _ _ _) R)
      as (d & c & ?). eauto.
Qed.

(** Whatever [getPdf] does, the objects there before are still there. *)
Lemma getPdf_keeps_the_heap (this : GeneratePDFs) (id : JsNumber) (w : World) :
  heap w `prefix_of` heap (snd (getPdf this id w)).
Proof.
  destruct (le_zero id) eqn:Z.
  - unfold getPdf. rewrite Z. reflexivity.
  - rewrite (getPdf_run _ _ _ Z).
    destruct (call_then_handle this _ _ w _ (makeGetRequest_run this ("/pdfs/" ++ Number_toString id) w))
      as [_ [[e X] | (response & d & c & _ & _ & _ & _ & X)]]; rewrite X; simpl.
    + reflexivity.
    + apply prefix_app_r. reflexivity.
Qed.

Lemma refresh_run (this : PdfRef) (o : Pdf) (w : World) :
  heap w !! this = Some o ->
  refresh this w = getPdf (priv_client o) (priv_id o) w.
Proof.
  intros E. unfold refresh. do 2 step_read E. reflexivity.
Qed.

(** C9. [refresh()] is the owning client's [getPdf] on the handle's own id.
    It assigns no field of any object that exists: after it, every handle of
    before, the refreshed one among them, refers to the same object with the
    same id, name, status, download URL and creation time. The handle it
    returns is a new object, not one of before, whatever status the server
    reports for it. *)
Theorem refresh_returns_a_new_handle (this : PdfRef) (o : Pdf) (w : World)
    (Hthis : heap w !! this = Some o) :
  refresh this w = getPdf (priv_client o) (priv_id o) w
  /\ heap (snd (refresh this w)) !! this = Some o
  /\ (forall other o',
        heap w !! other = Some o' ->
        heap (snd (refresh this w)) !! other = Some o')
  /\ (forall handle,
        fst (refresh this w) = Return handle ->
        handle <> this
        /\ heap w !! handle = None
        /\ is_Some (heap (snd (refresh this w)) !! handle)).
Proof.
  rewrite (refresh_run _ _ _ Hthis).
  assert (K : forall other o',
            heap w !! other = Some o' ->
            heap (snd (getPdf (priv_client o) (priv_id o) w)) !! other = Some o').
  { intros other o' E.
    eapply prefix_lookup_Some; [exact E | apply getPdf_keeps_the_heap]. }
  split; [reflexivity | split; [apply K; exact Hthis | split; [exact K|]]].
  intros handle R.
  destruct (getPdf (priv_client o) (priv_id o) w) as [outcome w'] eqn:G.
  simpl in R. subst outcome.
  apply getPdf_returns in G as (d & c & request & _ & _ & -> & ->).
  assert (N : heap w !! length (heap w) = None)
    by (apply lookup_ge_None_2; lia).
  split; [|split; [exact N|]].
  - intros E. rewrite E, Hthis in N. discriminate N.
  - simpl. rewrite list_lookup_middle; [eauto | reflexivity].
Qed.


End Handles.


(** * Runs on the concrete runtime *)

(** C1, on the data of [Pdf.test.js]: complete data gives a handle; data with
    only an id, and data with a date that does not parse, are refused with
    the two messages. *)
Lemma fromArray_on_the_test_data :
  (exists handle w',
      @fromArray offline completed_data client empty = (Return handle, w'))
  /\ @fromArray offline only_id client empty =
     (Throw (InvalidArgumentException "Invalid PDF data structure"), empty)
  /\ @fromArray offline bad_date client empty =
     (Throw (InvalidArgumentException
               "Invalid created_at format: invalid-date-format"), empty).
Proof.
  split; [|split].
  - apply (@fromArray_succeeds_exactly_on_valid_data
             offline completed_data client empty).
    split; [reflexivity | eexists; reflexivity].
  - apply (@fromArray_succeeds_exactly_on_valid_data offline only_id client empty).
    reflexivity.
  - apply (@fromArray_succeeds_exactly_on_valid_data offline bad_date client empty);
      reflexivity.
Defined.

(** C2, on a pending handle and on a completed one. *)
Lemma download_on_a_pending_handle :
  let w := mkWorld [pending_pdf; completed_pdf] [] in
  heap w !! 0%nat = Some pending_pdf
  /\ @download offline 0%nat w =
     (Throw (RuntimeException "PDF is not ready yet. Current status: pending"), w)
  /\ @download offline 1%nat w =
     @downloadPdf offline client
       "https://api.generatepdfs.com/pdfs/123/download/token" w.
Proof.
  intros w. split; [reflexivity|]. split.
  - apply (@download_is_gated_by_isReady offline 0%nat pending_pdf w eq_refl).
    discriminate.
  - apply (@download_is_gated_by_isReady offline 1%nat completed_pdf w eq_refl).
    reflexivity.
Defined.

(** C3, where the code leaves it. An image whose path ends in
    ".constructor" exists, has no MIME type of its own and an extension that
    is not in the table: its MIME type should be application/octet-stream,
    and [#detectMimeType] answers the [Object] function that the table
    inherits. An image whose path is a directory does not name a readable
    file and should be skipped: the path exists, the directory is opened,
    and the read error ends the loop. *)
Theorem processImages_on_an_inherited_extension_and_on_a_directory :
  let disk := Sample.host site [] in
  (own_property mimeTypes (extension "/site/shot.constructor") = None
   /\ @processImages disk [ImageInput.mk "shot" "/site/shot.constructor" None] =
      Return [ProcessedImage.mk "shot" "cG5nIGJ5dGVz"
                                (VIntrinsic ObjectConstructor)])
  /\ (@existsSync disk "/site/assets" = true
      /\ ~ @readable disk "/site/assets"
      /\ @processImages disk [ImageInput.mk "logo" "/site/assets" None] =
         Throw (Thrown (mkHostError SystemError
                          "EISDIR: illegal operation on a directory, read"))).
Proof.
  split; [split; reflexivity | split; [reflexivity | split; [|reflexivity]]].
  intros [_ [content E]]. discriminate E.
Qed.

(** X1, on the images of [Run.images] and the files of [Run.site]: the
    first and the fourth are kept. *)
Lemma processImages_on_the_site :
  @processImages (Sample.host site []) images =
  Return [ProcessedImage.mk "logo.png" "ZmFrZS1pbWFnZS1jb250ZW50"
                            (VString "image/png");
          ProcessedImage.mk "photo" "anBlZyBieXRlcw==" (VString "image/pjpeg")].
Proof.
  apply (@processImages_maps_the_existing_files_in_order
           (Sample.host site []) images).
  repeat constructor; vm_compute; discriminate.
Defined.

(** X16, on [Run.site]: two of five images are attached; of two invalid
    images none is, and the request is sent with an empty list. *)
Lemma generateFromHtml_on_the_site :
  let disk := Sample.host site [] in
  let html := ("html", VString "PGh0bWw+PGJvZHk+VGVzdDwvYm9keT48L2h0bWw+") in
  @opens disk "/site/index.html" = true
  /\ images <> []
  /\ requests (snd (@generateFromHtml disk client "/site/index.html" None
                      images empty)) =
     [@POST disk client "/pdfs/generate"
        (VObject [html;
                  ("images",
                   VArray [VObject [("name", VString "logo.png");
                                    ("content", VString "ZmFrZS1pbWFnZS1jb250ZW50");
                                    ("mime_type", VString "image/png")];
                           VObject [("name", VString "photo");
                                    ("content", VString "anBlZyBieXRlcw==");
                                    ("mime_type", VString "image/pjpeg")]])])]
  /\ requests (snd (@generateFromHtml disk client "/site/index.html" None
                      invalid_images empty)) =
     [@POST disk client "/pdfs/generate"
        (VObject [html; ("images", VArray [])])].
Proof.
  intros disk html. split; [reflexivity|]. split; [discriminate|]. split.
  - apply (@generateFromHtml_drops_the_invalid_images
             disk client "/site/index.html" None images empty eq_refl eq_refl).
    + discriminate.
    + repeat constructor; vm_compute; discriminate.
  - apply (@generateFromHtml_drops_the_invalid_images
             disk client "/site/index.html" None invalid_images empty
             eq_refl eq_refl).
    + discriminate.
    + repeat constructor; vm_compute; discriminate.
Defined.

(** C5 fails at 1.5 and at NaN: neither is a positive integer, and [getPdf]
    sends the GET and returns the handle it gets. *)
Lemma getPdf_accepts_one_and_a_half :
  is_positive_integer one_and_a_half = false
  /\ @getPdf (server (answer completed_data)) client one_and_a_half empty =
     (Return 0%nat,
      mkWorld [completed_pdf]
              [GET client "https://api.generatepdfs.com/pdfs/1.5"])
  /\ is_positive_integer S754_nan = false
  /\ @getPdf (server (answer completed_data)) client S754_nan empty =
     (Return 0%nat,
      mkWorld [completed_pdf]
              [GET client "https://api.generatepdfs.com/pdfs/NaN"]).
Proof. repeat split. Qed.

(** C5, on the ids of [GeneratePDFs.test.js]: 0 and -1 are refused, 789 is
    asked for. *)
Lemma getPdf_on_the_test_ids :
  @getPdf offline client (Number_ofZ 0) empty =
  (Throw (InvalidArgumentException "Invalid PDF ID: 0"), empty)
  /\ @getPdf offline client (Number_ofZ (-1)) empty =
     (Throw (InvalidArgumentException "Invalid PDF ID: -1"), empty)
  /\ requests (snd (@getPdf offline client (Number_ofZ 789) empty)) =
     [GET client "https://api.generatepdfs.com/pdfs/789"].
Proof.
  split; [|split].
  - apply (@getPdf_rejects_ids_at_most_zero offline client (Number_ofZ 0) empty).
    reflexivity.
  - apply (@getPdf_rejects_ids_at_most_zero offline client (Number_ofZ (-1)) empty).
    reflexivity.
  - apply (@getPdf_rejects_ids_at_most_zero offline client (Number_ofZ 789) empty).
    reflexivity.
Defined.

(** C6 fails on [downloadPdf]: the answer is a 404 with a body, and the
    message of the error has the status text and neither the code nor the
    body. *)
Lemma downloadPdf_error_has_the_status_text_only :
  @downloadPdf (server (inr not_found)) client
    "https://api.generatepdfs.com/pdfs/123/download/token" empty =
  (Throw (Error "Failed to download PDF: Not Found"),
   mkWorld [] [GET client
                 "https://api.generatepdfs.com/pdfs/123/download/token"])
  /\ includes "Failed to download PDF: Not Found" (statusText not_found) = true
  /\ includes "Failed to download PDF: Not Found"
              (Sample.Number_toString (status not_found)) = false
  /\ includes "Failed to download PDF: Not Found" (text not_found) = false.
Proof. repeat split. Qed.

(** C6, on a 404: what [getPdf] and [downloadPdf] throw. *)
Lemma failed_calls_on_a_404 :
  ok not_found = false
  /\ @getPdf (server (inr not_found)) client (Number_ofZ 123) empty =
     (Throw (Error "API request failed: 404 Not Found - no such document"),
      mkWorld [] [GET client "https://api.generatepdfs.com/pdfs/123"])
  /\ @downloadPdf (server (inr not_found)) client "https://example.com/d" empty =
     (Throw (Error "Failed to download PDF: Not Found"),
      mkWorld [] [GET client "https://example.com/d"]).
Proof.
  pose proof (@failed_call_error_carries_the_response
                (server (inr not_found)) client not_found empty eq_refl)
    as (_ & _ & G & D & _).
  split; [reflexivity|]. split.
  - apply (G (Number_ofZ 123)); reflexivity.
  - apply (D "https://example.com/d"). reflexivity.
Defined.

(** C7, where the code leaves it. The path of a directory exists and does
    not name a readable file: [generateFromHtml] should refuse it with
    [InvalidArgumentException] "HTML file not found or not readable", and it
    opens the directory and throws the read error. *)
Theorem generateFromHtml_on_a_directory :
  let disk := Sample.host site [] in
  @existsSync disk "/site/assets" = true
  /\ ~ @readable disk "/site/assets"
  /\ @generateFromHtml disk client "/site/assets" None [] empty =
     (Throw (Thrown (mkHostError SystemError
                       "EISDIR: illegal operation on a directory, read")),
      empty)
  /\ @generateFromHtml disk client "/site/index.html" (Some "/site/assets") []
       empty =
     (Throw (Thrown (mkHostError SystemError
                       "EISDIR: illegal operation on a directory, read")),
      empty).
Proof.
  split; [reflexivity | split; [|split; reflexivity]].
  intros [_ [content E]]. discriminate E.
Qed.

(** C4, where the code leaves it. An image whose path is a directory does
    not name a readable file: it fails the validation and should be dropped,
    the request being sent with the other images, or with none. Its path
    exists, [#processImages] opens it, and the read error ends the whole
    call: nothing is sent, whether the image comes alone or after valid
    ones, while the same call without it returns a handle. *)
Theorem generateFromHtml_on_an_image_that_is_a_directory :
  let disk := Sample.host site [answer completed_data] in
  let folder := ImageInput.mk "assets" "/site/assets" None in
  let EISDIR :=
    Thrown (mkHostError SystemError
                        "EISDIR: illegal operation on a directory, read") in
  (@existsSync disk "/site/assets" = true /\ ~ @readable disk "/site/assets")
  /\ @generateFromHtml disk client "/site/index.html" None [folder] empty =
     (Throw EISDIR, empty)
  /\ @generateFromHtml disk client "/site/index.html" None
       (images ++ [folder])%list empty =
     (Throw EISDIR, empty)
  /\ fst (@generateFromHtml disk client "/site/index.html" None images empty) =
     Return 0%nat.
Proof.
  split; [split; [reflexivity|] | split; [|split]; reflexivity].
  intros [_ [content E]]. discriminate E.
Qed.

(** X2, on the files of the tests: a path that is missing, with each
    message, and two files that are there. *)
Lemma generateFromHtml_on_missing_files :
  let disk := Sample.host site [] in
  @generateFromHtml disk client "/non/existent/file.html" None [] empty =
  (Throw (InvalidArgumentException
            "HTML file not found or not readable: /non/existent/file.html"),
   empty)
  /\ @generateFromHtml disk client "/site/index.html"
       (Some "/non/existent/file.css") [] empty =
     (Throw (InvalidArgumentException
               "CSS file not found or not readable: /non/existent/file.css"),
      empty)
  /\ requests (snd (@generateFromHtml disk client "/site/index.html"
                      (Some "/site/style.css") [] empty)) =
     [@POST disk client "/pdfs/generate"
        (VObject [("html", VString "PGh0bWw+PGJvZHk+VGVzdDwvYm9keT48L2h0bWw+");
                  ("css", VString "Ym9keSB7IGNvbG9yOiByZWQ7IH0=")])].
Proof.
  intros disk.
  assert (R : forall path content,
             Sample.find site path = Some (Sample.File content) ->
             @readable disk path).
  { intros path content E. unfold readable. simpl.
    unfold Sample.existsSync, Sample.readFileSync. rewrite E. eauto. }
  split; [|split].
  - apply (@generateFromHtml_checks_that_the_paths_exist
             disk client "/non/existent/file.html" None [] empty).
    reflexivity.
  - destruct (@generateFromHtml_checks_that_the_paths_exist
                disk client "/site/index.html" (Some "/non/existent/file.css")
                [] empty) as (_ & Css & _).
    apply Css; [eapply R|..]; reflexivity.
  - destruct (@generateFromHtml_checks_that_the_paths_exist
                disk client "/site/index.html" (Some "/site/style.css")
                [] empty) as (_ & _ & Both).
    apply Both; [eapply R; reflexivity | | constructor].
    intros css E. injection E as <-. eapply R. reflexivity.
Defined.

(** C8, on the two urls of the tests. *)
Lemma generateFromUrl_on_the_test_urls :
  @generateFromUrl offline client "not-a-valid-url" empty =
  (Throw (InvalidArgumentException "Invalid URL: not-a-valid-url"), empty)
  /\ requests (snd (@generateFromUrl offline client "https://example.com" empty)) =
     [@POST offline client "/pdfs/generate"
        (VObject [("url", VString "https://example.com")])].
Proof.
  split.
  - eapply (@generateFromUrl_checks_the_syntax_only
              offline client "not-a-valid-url" empty).
    reflexivity.
  - eapply (@generateFromUrl_checks_the_syntax_only
              offline client "https://example.com" empty).
    reflexivity.
Defined.

(** C9, on the scenario of the tests: a pending handle is refreshed, the
    server says completed; the new handle is ready and the old one is as it
    was. *)
Lemma refresh_on_a_pending_handle :
  let w := mkWorld [pending_pdf] [] in
  let h := server (answer completed_data) in
  heap w !! 0%nat = Some pending_pdf
  /\ fst (@refresh h 0%nat w) = Return 1%nat
  /\ heap (snd (@refresh h 0%nat w)) !! 0%nat = Some pending_pdf
  /\ heap (snd (@refresh h 0%nat w)) !! 1%nat = Some completed_pdf
  /\ 1%nat <> 0%nat.
Proof.
  intros w h.
  pose proof (@refresh_returns_a_new_handle h 0%nat pending_pdf w eq_refl)
    as (_ & Same & _ & New).
  split; [reflexivity | split; [reflexivity | split; [exact Same|]]].
  split; [reflexivity|].
  apply (New 1%nat). reflexivity.
Defined.

(** * The operations as a whole, and the rest of the code *)

(** ** Every operation: a local phase, one request, the answer *)

Section Shape.
Context `{Host}.

Lemma call_settles (this : GeneratePDFs) (call : M ApiResponse.t)
    (request : Request) (w : World) :
  call w =
  (match fetch_response (requests w) request with
   | inl e => Throw (Thrown e)
   | inr r => if ok r then of_host (json r) else Throw (api_failure r)
   end, after request w) ->
  bind call (handle_of this) w =
  settle this (fetch_response (requests w) request) (after request w).
Proof.
  intros E. unfold bind, settle. rewrite E.
  destruct (fetch_response (requests w) request) as [e|r]; [reflexivity|].
  destruct (ok r); [|reflexivity].
  destruct (json r); reflexivity.
Qed.

(** What every operation is: stopped by a local check with the world as it
    was, or one request and [settle] on its answer. *)
Lemma run_shape (client : GeneratePDFs) (op : Operation) (w : World) :
  match request_of client op w with
  | Some request =>
      run client op w =
      settle (acting client op w) (fetch_response (requests w) request)
             (after request w)
  | None => exists e, run client op w = (Throw e, w)
  end.
Proof.
  destruct op as [htmlPath cssPath images | url | id | this]; simpl.
  - rewrite generateFromHtml_run.
    destruct (html_payload htmlPath cssPath images) as [payload|e]; [|eauto].
    apply call_settles, makeRequest_run.
  - rewrite generateFromUrl_run. destruct (URL_new url); [eauto|].
    apply call_settles, makeRequest_run.
  - destruct (le_zero id) eqn:Z.
    + unfold getPdf. rewrite Z. eauto.
    + rewrite (getPdf_run _ _ _ Z). apply call_settles, makeGetRequest_run.
  - destruct (heap w !! this) as [o|] eqn:E; simpl.
    + rewrite (refresh_run _ _ _ E). destruct (le_zero (priv_id o)) eqn:Z.
      * unfold getPdf. rewrite Z. eauto.
      * rewrite (getPdf_run _ _ _ Z). apply call_settles, makeGetRequest_run.
    + unfold refresh, bind, read. rewrite E. eauto.
Qed.

(** [settle] records nothing more and makes at most the object it returns. *)
Lemma settle_frame (this : GeneratePDFs) (answer : HostError + Response)
    (w : World) :
  requests (snd (settle this answer w)) = requests w
  /\ ((exists e, settle this answer w = (Throw e, w))
      \/ (exists o, settle this answer w =
                    (Return (length (heap w)),
                     mkWorld (heap w ++ [o])%list (requests w)))).
Proof.
  unfold settle. destruct answer as [e|r]; [split; [reflexivity | left; eauto]|].
  destruct (ok r); [|split; [reflexivity | left; eauto]].
  destruct (json r) as [e|response]; [split; [reflexivity | left; eauto]|].
  destruct (handle_of_frame this response w)
    as [R [E | (d & c & _ & _ & _ & E)]]; split; eauto.
Qed.

(** X5. No operation sends more than one request, and the objects there
    before it are there after it, unchanged. An operation that a local check
    stops leaves the world as it was; one that fails makes no object; one
    that returns a handle has sent exactly one request and made exactly one
    object, the one it returns. *)
Theorem operations_send_one_request_and_make_one_object
    (client : GeneratePDFs) (op : Operation) (w : World) :
  heap w `prefix_of` heap (snd (run client op w))
  /\ match request_of client op w with
     | Some request =>
         requests (snd (run client op w)) = request :: requests w
     | None =>
         snd (run client op w) = w /\ exists e, fst (run client op w) = Throw e
     end
  /\ (forall e, fst (run client op w) = Throw e ->
                heap (snd (run client op w)) = heap w)
  /\ (forall handle,
        fst (run client op w) = Return handle ->
        handle = length (heap w)
        /\ length (heap (snd (run client op w))) = S (length (heap w))
        /\ exists request,
             requests (snd (run client op w)) = request :: requests w).
Proof.
  pose proof (run_shape client op w) as S.
  destruct (request_of client op w) as [request|].
  - rewrite S.
    destruct (settle_frame (acting client op w)
                (fetch_response (requests w) request) (after request w))
      as [R [[e E] | [o E]]]; rewrite E in *; simpl in *.
    + split; [reflexivity|]. split; [reflexivity|]. split; [reflexivity|].
      discriminate.
    + split; [apply prefix_app_r; reflexivity|]. split; [reflexivity|].
      split; [discriminate|].
      intros handle X. injection X as <-.
      split; [reflexivity|]. split; [|eauto].
      rewrite length_app. simpl. lia.
  - destruct S as [e E]. rewrite E. simpl.
    split; [reflexivity|]. split; [eauto|]. split; [reflexivity | discriminate].
Qed.

Lemma prefix_append (a b : string) : String.prefix a (a ++ b) = true.
Proof.
  induction a as [|c a IH]; simpl; [destruct b; reflexivity|].
  destruct (ascii_dec c c); [exact IH | congruence].
Qed.

(** X6. The request an operation sends goes to the base URL of the client
    it acts for, which is https://api.generatepdfs.com for a client made by
    [connect], and carries that client's token as a Bearer authorization.
    [generateFromHtml] and [generateFromUrl] send a POST with a JSON content
    type and a body; [getPdf] and [refresh] send a GET with no body, to
    /pdfs/ and the id. *)
Theorem requests_carry_the_token_to_the_base_url
    (client : GeneratePDFs) (op : Operation) (w : World) (request : Request)
    (Hsent : request_of client op w = Some request) :
  let this := acting client op w in
  requests (snd (run client op w)) = request :: requests w
  /\ In ("Authorization", "Bearer " ++ apiToken this)
        (headers (request_init request))
  /\ String.prefix (baseUrl this) (request_url request) = true
  /\ (forall token, this = connect token ->
        String.prefix "https://api.generatepdfs.com" (request_url request) = true)
  /\ match asked_id op w with
     | Some id =>
         request_method request = "GET"
         /\ body (request_init request) = None
         /\ request_url request =
            baseUrl this ++ "/pdfs/" ++ Number_toString id
     | None =>
         request_method request = "POST"
         /\ In ("Content-Type", "application/json")
               (headers (request_init request))
         /\ is_Some (body (request_init request))
         /\ request_url request = baseUrl this ++ "/pdfs/generate"
     end.
Proof.
  intros this.
  assert (S : requests (snd (run client op w)) = request :: requests w).
  { pose proof (run_shape client op w) as S. rewrite Hsent in S. rewrite S.
    apply settle_frame. }
  split; [exact S|].
  assert (U : String.prefix (baseUrl this) (request_url request) = true
              -> forall token, this = connect token ->
                 String.prefix "https://api.generatepdfs.com"
                               (request_url request) = true).
  { intros P token E. rewrite E in P. exact P. }
  unfold request_of in Hsent. subst this.
  destruct op as [htmlPath cssPath images | url | id | handle]; simpl in *.
  - destruct (html_payload htmlPath cssPath images); [|discriminate].
    injection Hsent as <-. simpl.
    split; [left; reflexivity|]. split; [apply prefix_append|].
    split; [apply U, prefix_append|].
    split; [reflexivity|]. split; [right; left; reflexivity|].
    split; [eauto | reflexivity].
  - destruct (URL_new url); [discriminate|].
    injection Hsent as <-. simpl.
    split; [left; reflexivity|]. split; [apply prefix_append|].
    split; [apply U, prefix_append|].
    split; [reflexivity|]. split; [right; left; reflexivity|].
    split; [eauto | reflexivity].
  - destruct (le_zero id); [discriminate|].
    injection Hsent as <-. simpl.
    split; [left; reflexivity|]. split; [apply prefix_append|].
    split; [apply U, prefix_append|].
    split; [reflexivity|]. split; reflexivity.
  - destruct (heap w !! handle) as [o|]; simpl in *; [|discriminate].
    destruct (le_zero (priv_id o)); [discriminate|].
    injection Hsent as <-. simpl.
    split; [left; reflexivity|]. split; [apply prefix_append|].
    split; [apply U, prefix_append|].
    split; [reflexivity|]. split; reflexivity.
Qed.

End Shape.

(** ** The handles returned *)

Section Returned.
Context `{Host}.



End Returned.

(** ** The answer, and the errors *)

Section Answer.
Context `{Host}.

(** X7. Once an operation has sent its request, the answer decides the
    rest, the same way for every operation. A [fetch] that rejects and a
    [json()] that throws surface as they are; a status that is not a success
    gives the API error; a body without [data] gives
    [InvalidArgumentException] "Invalid API response: missing data", after
    the request and with no object made; a body with [data] is handed to
    [fromArray] with the acting client. *)
Theorem operations_settle_on_the_answer
    (client : GeneratePDFs) (op : Operation) (w : World) (request : Request)
    (Hsent : request_of client op w = Some request) :
  let this := acting client op w in
  let w1 := after request w in
  (forall e,
     fetch_response (requests w) request = inl e ->
     run client op w = (Throw (Thrown e), w1))
  /\ (forall r,
        fetch_response (requests w) request = inr r -> ok r = false ->
        run client op w = (Throw (api_failure r), w1))
  /\ (forall r e,
        fetch_response (requests w) request = inr r -> ok r = true ->
        json r = inl e ->
        run client op w = (Throw (Thrown e), w1))
  /\ (forall r,
        fetch_response (requests w) request = inr r -> ok r = true ->
        json r = inr (ApiResponse.mk None) ->
        run client op w =
        (Throw (InvalidArgumentException "Invalid API response: missing data"),
         w1))
  /\ (forall r d,
        fetch_response (requests w) request = inr r -> ok r = true ->
        json r = inr (ApiResponse.mk (Some d)) ->
        run client op w = fromArray d this w1).
Proof.
  intros this w1.
  pose proof (run_shape client op w) as S. rewrite Hsent in S. rewrite S.
  unfold settle. repeat split.
  - intros e ->. reflexivity.
  - intros r -> ->. reflexivity.
  - intros r e -> -> ->. reflexivity.
  - intros r -> -> ->. reflexivity.
  - intros r d -> -> ->. reflexivity.
Qed.

Lemma processImages_from_throws (images : list ImageInput.t) :
  forall processed e,
    processImages_from processed images = Throw e -> exists h, e = Thrown h.
Proof.
  induction images as [|image rest IH]; intros processed e; simpl;
    [discriminate|].
  destruct (negb (truthy (ImageInput.path image))
            || negb (truthy (ImageInput.name image))); [apply IH|].
  destruct (negb (existsSync (ImageInput.path image))); [apply IH|].
  destruct (readFileSync (ImageInput.path image)) as [h|content]; simpl.
  - intros E. injection E as <-. eauto.
  - apply IH.
Qed.

Lemma html_payload_throws (htmlPath : string) (cssPath : option string)
    (images : list ImageInput.t) (e : JsError) :
  html_payload htmlPath cssPath images = Throw e -> local_error e.
Proof.
  unfold html_payload.
  destruct (negb (existsSync htmlPath)); [intros E; injection E as <-; exact I|].
  destruct (readFileSync htmlPath) as [h|htmlContent]; simpl;
    [intros E; injection E as <-; exact I|].
  assert (P : forall (attach : list ProcessedImage.t -> list (string * JsValue))
                     (base : list (string * JsValue)),
             (if (0 <? length images)%nat
              then match processImages images with
                   | Return processed => Return (attach processed)
                   | Throw e => Throw e
                   end
              else Return base) = Throw e -> local_error e).
  { intros attach base. destruct (0 <? length images)%nat; [|discriminate].
    destruct (processImages images) as [processed|e'] eqn:P; [discriminate|].
    intros E. injection E as <-.
    apply processImages_from_throws in P as [h ->]. exact I. }
  destruct cssPath as [cssPath|]; [|apply P].
  destruct (negb (existsSync cssPath)); [intros E; injection E as <-; exact I|].
  destruct (readFileSync cssPath) as [h|cssContent]; simpl;
    [intros E; injection E as <-; exact I | apply P].
Qed.

Lemma local_phase_errors (client : GeneratePDFs) (op : Operation) (w : World)
    (e : JsError) :
  request_of client op w = None ->
  fst (run client op w) = Throw e -> local_error e.
Proof.
  destruct op as [htmlPath cssPath images | url | id | this]; simpl.
  - rewrite generateFromHtml_run.
    destruct (html_payload htmlPath cssPath images) as [payload|e'] eqn:P;
      [discriminate|].
    intros _ E. injection E as <-. exact (html_payload_throws _ _ _ _ P).
  - rewrite generateFromUrl_run. destruct (URL_new url); [|discriminate].
    intros _ E. injection E as <-. exact I.
  - unfold getPdf. destruct (le_zero id); [|discriminate].
    intros _ E. injection E as <-. exact I.
  - destruct (heap w !! this) as [o|] eqn:L; simpl.
    + rewrite (refresh_run _ _ _ L). unfold getPdf.
      destruct (le_zero (priv_id o)); [|discriminate].
      intros _ E. injection E as <-. exact I.
    + unfold refresh, bind, read. rewrite L.
      intros _ E. injection E as <-. exact I.
Qed.

End Answer.

(** ** Downloads *)

Section Downloads.
Context `{Host}.

Lemma download_run (this : PdfRef) (o : Pdf) (w : World) :
  heap w !! this = Some o ->
  download this w =
  if String.eqb (priv_status o) "completed"
  then downloadPdf (priv_client o) (priv_downloadUrl o) w
  else (Throw (RuntimeException
                 ("PDF is not ready yet. Current status: " ++ priv_status o)),
        w).
Proof.
  intros E.
  assert (R : isReady this w
              = (Return (String.eqb (priv_status o) "completed"), w)).
  { unfold isReady. step_read E. reflexivity. }
  unfold download. rewrite (bind_run _ _ _ _ _ R).
  destruct (String.eqb (priv_status o) "completed"); simpl.
  - do 2 step_read E. reflexivity.
  - step_read E. reflexivity.
Qed.

(** X4. [download()] on a ready handle sends one GET to the handle's
    download URL, as it is, with the token of the handle's client, and makes
    no object. It returns the bytes of the answer, unchanged, when the status
    of the answer is a success; it throws the download error else, and the
    error of [fetch] when [fetch] rejects. *)
Theorem download_returns_the_bytes_of_the_answer
    (this : PdfRef) (o : Pdf) (w : World)
    (Hthis : heap w !! this = Some o)
    (Hready : priv_status o = "completed") :
  let request := GET (priv_client o) (priv_downloadUrl o) in
  snd (download this w) = after request w
  /\ request_url request = priv_downloadUrl o
  /\ headers (request_init request)
     = [("Authorization", "Bearer " ++ apiToken (priv_client o))]
  /\ (forall r,
        fetch_response (requests w) request = inr r -> ok r = true ->
        fst (download this w) = Return (arrayBuffer r))
  /\ (forall r,
        fetch_response (requests w) request = inr r -> ok r = false ->
        fst (download this w) = Throw (download_failure r))
  /\ (forall e,
        fetch_response (requests w) request = inl e ->
        fst (download this w) = Throw (Thrown e)).
Proof.
  intros request. apply String.eqb_eq in Hready.
  rewrite (download_run _ _ _ Hthis), Hready, downloadPdf_run.
  fold request. cbn [fst snd].
  split; [reflexivity|]. split; [reflexivity|]. split; [reflexivity|].
  split; [|split].
  - intros r -> ->. reflexivity.
  - intros r -> ->. reflexivity.
  - intros e ->. reflexivity.
Qed.

End Downloads.

Section ToFileFacts.
Context `{Host} `{Disk}.

(** X3. [downloadToFile(path)] is [download()] and then one call of
    [writeFileSync] with the path and the bytes downloaded. On a handle that
    is not ready it throws what [download()] throws, sends nothing and
    writes nothing; when the download fails it throws the error of the
    download and writes nothing. When the bytes arrive it hands exactly them
    to [writeFileSync] and returns [true], or, whatever error the write
    throws, throws [RuntimeException] "Failed to write PDF to file: " and
    the path. *)
Theorem downloadToFile_writes_the_bytes_downloaded
    (this : PdfRef) (o : Pdf) (filePath : string) (w : World) (writes : Writes)
    (Hthis : heap w !! this = Some o) :
  let request := GET (priv_client o) (priv_downloadUrl o) in
  (priv_status o <> "completed" ->
     downloadToFile this filePath (w, writes) =
     (Throw (RuntimeException
               ("PDF is not ready yet. Current status: " ++ priv_status o)),
      (w, writes)))
  /\ (priv_status o = "completed" ->
      (forall e,
         fetch_response (requests w) request = inl e ->
         downloadToFile this filePath (w, writes) =
         (Throw (Thrown e), (after request w, writes)))
      /\ (forall r,
            fetch_response (requests w) request = inr r -> ok r = false ->
            downloadToFile this filePath (w, writes) =
            (Throw (download_failure r), (after request w, writes)))
      /\ (forall r,
            fetch_response (requests w) request = inr r -> ok r = true ->
            snd (downloadToFile this filePath (w, writes)) =
            (after request w, (filePath, arrayBuffer r) :: writes)
            /\ (forall done,
                  writeFileSync filePath (arrayBuffer r) = inr done ->
                  fst (downloadToFile this filePath (w, writes)) = Return true)
            /\ (forall error,
                  writeFileSync filePath (arrayBuffer r) = inl error ->
                  fst (downloadToFile this filePath (w, writes)) =
                  Throw (RuntimeException
                           ("Failed to write PDF to file: " ++ filePath))))).
Proof.
  intros request. unfold downloadToFile.
  rewrite (download_run _ _ _ Hthis). split.
  - intros N. apply String.eqb_neq in N. rewrite N. reflexivity.
  - intros E. apply String.eqb_eq in E. rewrite E, downloadPdf_run.
    fold request. split; [|split].
    + intros e ->. reflexivity.
    + intros r -> ->. reflexivity.
    + intros r -> ->. cbn [fst snd negb]. split; [reflexivity|]. split.
      * intros done ->. reflexivity.
      * intros error ->. reflexivity.
Qed.

End ToFileFacts.

(** ** From the answer to the handle, and on *)

Section Compose.
Context `{Host}.

(** X12. When the answer is a success whose [data] is complete, with a
    date that parses, the operation returns a new handle on that data, held
    by the acting client. The id of the handle is [Number] of the id the
    server gave, whatever id was asked for, and [refresh()] asks for that id:
    it is refused without a request when that id is not above zero. The
    handle is ready exactly when [String] of the status the server gave is
    "completed", and [download()] then goes to [String] of the download URL
    the server gave. *)
Theorem handles_are_made_of_the_answer
    (client : GeneratePDFs) (op : Operation) (w : World) (request : Request)
    (r : Response) (d : PdfData.t) (createdAt : JsDate)
    (Hsent : request_of client op w = Some request)
    (Hanswer : fetch_response (requests w) request = inr r)
    (Hok : ok r = true)
    (Hjson : json r = inr (ApiResponse.mk (Some d)))
    (Hdata : complete d = true)
    (Hdate : timestamp (PdfData.created_at d) = Some createdAt) :
  let this := acting client op w in
  let handle := length (heap w) in
  let w1 := mkWorld (heap w ++ [Pdf_of d createdAt this])%list
                    (request :: requests w) in
  run client op w = (Return handle, w1)
  /\ getId handle w1 = (Return (ToNumber (PdfData.id d)), w1)
  /\ isReady handle w1 =
     (Return (String.eqb (ToString (PdfData.status d)) "completed"), w1)
  /\ refresh handle w1 = getPdf this (ToNumber (PdfData.id d)) w1
  /\ (le_zero (ToNumber (PdfData.id d)) = true ->
      refresh handle w1 =
      (Throw (InvalidArgumentException
                ("Invalid PDF ID: " ++ Number_toString (ToNumber (PdfData.id d)))),
       w1))
  /\ download handle w1 =
     if String.eqb (ToString (PdfData.status d)) "completed"
     then downloadPdf this (ToString (PdfData.download_url d)) w1
     else (Throw (RuntimeException
                    ("PDF is not ready yet. Current status: "
                       ++ ToString (PdfData.status d))), w1).
Proof.
  intros this handle w1.
  assert (L : heap w1 !! handle = Some (Pdf_of d createdAt this))
    by (apply list_lookup_middle; reflexivity).
  assert (R : refresh handle w1 = getPdf this (ToNumber (PdfData.id d)) w1)
    by apply (refresh_run _ _ _ L).
  split; [|split; [|split; [|split; [|split]]]].
  - pose proof (run_shape client op w) as S. rewrite Hsent in S. rewrite S.
    unfold settle. rewrite Hanswer, Hok, Hjson. unfold handle_of. simpl.
    rewrite fromArray_run, Hdata, Hdate. reflexivity.
  - exact (read_run handle priv_id w1 _ L).
  - unfold isReady. step_read L. reflexivity.
  - exact R.
  - intros Z. rewrite R. unfold getPdf. rewrite Z. reflexivity.
  - apply (download_run _ _ _ L).
Qed.

End Compose.

(** ** [#processImages], all of it *)

Section ImagesMore.
Context `{Host}.

Lemma processImages_from_run (images : list ImageInput.t) :
  forall processed,
    processImages_from processed images =
    match first_unreadable images with
    | Some e => Throw (Thrown e)
    | None => Return (processed ++ map entry (List.filter kept images))%list
    end.
Proof.
  induction images as [|image rest IH]; intros processed; simpl.
  - rewrite app_nil_r. reflexivity.
  - unfold kept.
    destruct (truthy (ImageInput.path image)); simpl;
      [|rewrite andb_false_r; apply IH].
    destruct (truthy (ImageInput.name image)); simpl; [|apply IH].
    destruct (existsSync (ImageInput.path image)); simpl; [|apply IH].
    destruct (readFileSync (ImageInput.path image)) as [e|content] eqn:F;
      simpl; [reflexivity|].
    rewrite IH. destruct (first_unreadable rest); [reflexivity|].
    rewrite <- app_assoc. simpl. do 3 f_equal.
    unfold entry, file_bytes. rewrite F. reflexivity.
Qed.

Lemma first_unreadable_app (a b : list ImageInput.t) :
  first_unreadable (a ++ b) =
  match first_unreadable a with
  | Some e => Some e
  | None => first_unreadable b
  end.
Proof.
  induction a as [|image a IH]; simpl; [reflexivity|].
  destruct (kept image); [|exact IH].
  destruct (readFileSync (ImageInput.path image)); [reflexivity | exact IH].
Qed.

(** X8. [#processImages] either returns what the entries it keeps give, in
    the order of the input, or throws the error of the first file it opens
    and cannot read: the entries before that one are lost with it and the
    ones after it are not looked at. It opens a file only for an entry that
    has a name and a path that exists. *)
Theorem processImages_stops_at_the_first_unreadable_file
    (images : list ImageInput.t) :
  processImages images =
  match first_unreadable images with
  | Some e => Throw (Thrown e)
  | None => Return (map entry (List.filter kept images))
  end
  /\ (forall before image after e,
        images = (before ++ image :: after)%list ->
        first_unreadable before = None ->
        kept image = true ->
        readFileSync (ImageInput.path image) = inl e ->
        processImages images = Throw (Thrown e))
  /\ (Forall (fun image => kept image = true ->
                can_read (ImageInput.path image) = true) images <->
      first_unreadable images = None).
Proof.
  split; [apply (processImages_from_run images [])|]. split.
  - intros before image rest e -> B K F.
    unfold processImages. rewrite processImages_from_run, first_unreadable_app, B.
    simpl. rewrite K, F. reflexivity.
  - induction images as [|image rest IH]; simpl.
    + split; [reflexivity | constructor].
    + rewrite Forall_cons, IH. unfold can_read.
      destruct (kept image);
        [destruct (readFileSync (ImageInput.path image))|].
      * split; [|discriminate].
        intros [K _]. specialize (K eq_refl). discriminate K.
      * split; [intros [_ E]; exact E | intros E; split; [reflexivity | exact E]].
      * split; [intros [_ E]; exact E | intros E; split; [discriminate | exact E]].
Qed.

(** X9. [#processImages] on two lists one after the other is
    [#processImages] on the first and then on the second: the results are
    appended, and an error of the first hides the second. It never returns
    more entries than it was given, and the names it returns are the names
    of the entries it keeps, in order. *)
Theorem processImages_of_two_lists (a b : list ImageInput.t) :
  processImages (a ++ b) =
  match processImages a with
  | Throw e => Throw e
  | Return pa =>
      match processImages b with
      | Throw e => Throw e
      | Return pb => Return (pa ++ pb)%list
      end
  end
  /\ (forall processed,
        processImages a = Return processed ->
        (length processed <= length a)%nat
        /\ map ProcessedImage.name processed =
           map ImageInput.name (List.filter kept a)).
Proof.
  unfold processImages. rewrite !processImages_from_run, first_unreadable_app.
  split.
  - destruct (first_unreadable a); [reflexivity|].
    destruct (first_unreadable b); [reflexivity|].
    simpl. rewrite List.filter_app, map_app. reflexivity.
  - intros processed. destruct (first_unreadable a); [discriminate|].
    simpl. intros E. injection E as <-. split.
    + rewrite length_map. apply List.filter_length_le.
    + rewrite map_map. reflexivity.
Qed.

End ImagesMore.

(** ** [#detectMimeType], all of it *)

Lemma append_assoc (a b c : string) : (a ++ b) ++ c = a ++ (b ++ c).
Proof. induction a as [|x a IH]; simpl; [reflexivity | rewrite IH; reflexivity]. Qed.

Lemma toLowerCase_append (a b : string) :
  toLowerCase (a ++ b) = toLowerCase a ++ toLowerCase b.
Proof. induction a as [|x a IH]; simpl; [reflexivity | rewrite IH; reflexivity]. Qed.

Lemma lower_ascii_idempotent (c : ascii) :
  lower_ascii (lower_ascii c) = lower_ascii c.
Proof. destruct c as [[] [] [] [] [] [] [] []]; reflexivity. Qed.

Lemma toLowerCase_idempotent (s : string) :
  toLowerCase (toLowerCase s) = toLowerCase s.
Proof.
  induction s as [|c s IH]; simpl; [reflexivity|].
  rewrite lower_ascii_idempotent, IH. reflexivity.
Qed.

Lemma lower_ascii_dot (c : ascii) :
  Ascii.eqb (lower_ascii c) "." = Ascii.eqb c ".".
Proof. destruct c as [[] [] [] [] [] [] [] []]; reflexivity. Qed.

Lemma has_dot_toLowerCase (s : string) :
  has_char "." (toLowerCase s) = has_char "." s.
Proof.
  induction s as [|c s IH]; simpl; [reflexivity|].
  rewrite lower_ascii_dot, IH. reflexivity.
Qed.

Lemma has_char_append (c : ascii) (a b : string) :
  has_char c (a ++ b) = has_char c a || has_char c b.
Proof.
  induction a as [|x a IH]; simpl; [reflexivity|].
  rewrite IH, orb_assoc. reflexivity.
Qed.

Lemma split_from_not_empty (sep : ascii) (s : string) :
  forall piece, split_from sep piece s <> [].
Proof.
  induction s as [|c s IH]; intros piece; simpl; [discriminate|].
  destruct (Ascii.eqb c sep); [discriminate | apply IH].
Qed.

Lemma last_cons_split_from (sep : ascii) (x piece s : string) :
  last (x :: split_from sep piece s) = last (split_from sep piece s).
Proof.
  pose proof (split_from_not_empty sep s piece) as N.
  destruct (split_from sep piece s); [congruence | reflexivity].
Qed.

(** Past a separator, the pieces before it do not count for the last. *)
Lemma last_split_from_append (sep : ascii) (a b : string) :
  forall piece,
    last (split_from sep piece (a ++ String sep b)) =
    last (split_from sep EmptyString b).
Proof.
  induction a as [|c a IH]; intros piece; simpl.
  - rewrite Ascii.eqb_refl. apply last_cons_split_from.
  - destruct (Ascii.eqb c sep); [|apply IH].
    rewrite last_cons_split_from. apply IH.
Qed.

Lemma split_from_no_separator (sep : ascii) (s : string) :
  forall piece,
    has_char sep s = false -> split_from sep piece s = [piece ++ s].
Proof.
  induction s as [|c s IH]; intros piece; simpl.
  - intros _. f_equal. induction piece as [|x piece IHp]; simpl;
      [reflexivity | rewrite <- IHp; reflexivity].
  - destruct (Ascii.eqb c sep); simpl; [discriminate|].
    intros E. rewrite (IH _ E), append_assoc. reflexivity.
Qed.

Lemma split_from_pieces (sep : ascii) (s : string) :
  forall piece,
    has_char sep piece = false ->
    Forall (fun p => has_char sep p = false) (split_from sep piece s).
Proof.
  induction s as [|c s IH]; intros piece P; simpl.
  - constructor; [exact P | constructor].
  - destruct (Ascii.eqb c sep) eqn:E.
    + constructor; [exact P | apply IH; reflexivity].
    + apply IH. rewrite has_char_append, P. simpl. rewrite E. reflexivity.
Qed.

Lemma last_split_from_lower (s : string) :
  forall piece,
    last (split_from "." (toLowerCase piece) (toLowerCase s)) =
    toLowerCase <$> last (split_from "." piece s).
Proof.
  induction s as [|c s IH]; intros piece; simpl; [reflexivity|].
  rewrite lower_ascii_dot. destruct (Ascii.eqb c ".").
  - rewrite !last_cons_split_from. apply (IH EmptyString).
  - rewrite <- IH, toLowerCase_append. reflexivity.
Qed.

Lemma extension_lower (s : string) : extension (toLowerCase s) = extension s.
Proof.
  unfold extension, pop, split.
  pose proof (last_split_from_lower s EmptyString) as L. simpl in L. rewrite L.
  destruct (last (split_from "." EmptyString s)); simpl;
    [apply toLowerCase_idempotent | reflexivity].
Qed.

Lemma extension_shape (filePath : string) :
  has_char "." (extension filePath) = false
  /\ has_capital (extension filePath) = false.
Proof.
  unfold extension, pop, split.
  pose proof (split_from_pieces "." filePath EmptyString eq_refl) as F.
  destruct (last (split_from "." EmptyString filePath)) as [piece|] eqn:L;
    [|split; reflexivity].
  split; [|apply toLowerCase_no_capital].
  rewrite has_dot_toLowerCase.
  apply last_Some_elem_of in L.
  rewrite Forall_forall in F. apply F, L.
Qed.

(** X10. [#detectMimeType] reads what follows the last dot of the path and
    nothing else: what comes before a dot never counts, a path with no dot is
    its own extension (a file named png is an image/png), and the case of the
    letters does not count. *)
Theorem detectMimeType_reads_what_follows_the_last_dot :
  (forall before rest : string,
     detectMimeType (before ++ "." ++ rest) = detectMimeType rest)
  /\ (forall name : string,
        has_char "." name = false ->
        detectMimeType name =
        match Get mimeTypes (toLowerCase name) with
        | Some v => v
        | None => VString "application/octet-stream"
        end)
  /\ (forall a b : string,
        toLowerCase a = toLowerCase b -> detectMimeType a = detectMimeType b).
Proof.
  assert (D : forall p, detectMimeType p =
                        match Get mimeTypes (extension p) with
                        | Some v => v
                        | None => VString "application/octet-stream"
                        end) by reflexivity.
  split; [|split].
  - intros before rest. unfold detectMimeType, pop, split. simpl.
    rewrite last_split_from_append. reflexivity.
  - intros name N. unfold detectMimeType, pop, split.
    rewrite (split_from_no_separator _ _ _ N). reflexivity.
  - intros a b E. rewrite !D, <- (extension_lower a), <- (extension_lower b), E.
    reflexivity.
Qed.

(** X11. What [#detectMimeType] returns. For the extension constructor it
    is the [Object] function, for __proto__ it is [Object.prototype], which
    are not strings; for every other extension it is one of six strings,
    the five image types of the table or application/octet-stream. It never
    returns a method of [Object.prototype] such as [toString] or [valueOf],
    whose names have a capital, because the extension is in lower case; the
    extension has no dot either. *)
Theorem detectMimeType_returns_a_type_of_the_table_or_an_inherited_object
    (filePath : string) :
  detectMimeType filePath =
  (if String.eqb (extension filePath) "constructor"
   then VIntrinsic ObjectConstructor
   else if String.eqb (extension filePath) "__proto__"
        then VIntrinsic ObjectPrototype
        else VString (table_mime (extension filePath)))
  /\ In (table_mime (extension filePath))
        ["image/jpeg"; "image/png"; "image/gif"; "image/webp";
         "image/svg+xml"; "application/octet-stream"]
  /\ (forall name, detectMimeType filePath <>
                   VIntrinsic (ObjectPrototypeMethod name))
  /\ has_char "." (extension filePath) = false
  /\ has_capital (extension filePath) = false.
Proof.
  assert (V : detectMimeType filePath =
              (if String.eqb (extension filePath) "constructor"
               then VIntrinsic ObjectConstructor
               else if String.eqb (extension filePath) "__proto__"
                    then VIntrinsic ObjectPrototype
                    else VString (table_mime (extension filePath)))).
  { destruct (String.eqb (extension filePath) "constructor") eqn:C.
    - apply String.eqb_eq in C. change (detectMimeType filePath) with
        (match Get mimeTypes (extension filePath) with
         | Some v => v
         | None => VString "application/octet-stream"
         end). rewrite C. reflexivity.
    - destruct (String.eqb (extension filePath) "__proto__") eqn:P.
      + apply String.eqb_eq in P. change (detectMimeType filePath) with
          (match Get mimeTypes (extension filePath) with
           | Some v => v
           | None => VString "application/octet-stream"
           end). rewrite P. reflexivity.
      + apply detectMimeType_table. unfold inherited_name. rewrite C, P.
        reflexivity. }
  split; [exact V|]. split; [|split; [|apply extension_shape]].
  - unfold table_mime, mimeTypes, own_property.
    repeat match goal with
           | |- context [String.eqb ?a ?b] => destruct (String.eqb a b)
           end; simpl; tauto.
  - intros name. rewrite V.
    destruct (String.eqb (extension filePath) "constructor"); [discriminate|].
    destruct (String.eqb (extension filePath) "__proto__"); discriminate.
Qed.

(** ** [generateFromHtml], before it sends *)

Section Local.
Context `{Host}.

Lemma html_payload_run (htmlPath : string) (cssPath : option string)
    (images : list ImageInput.t) :
  html_payload htmlPath cssPath images =
  if negb (existsSync htmlPath) then
    Throw (InvalidArgumentException
             ("HTML file not found or not readable: " ++ htmlPath))
  else
    match readFileSync htmlPath with
    | inl e => Throw (Thrown e)
    | inr _ =>
        match
          match cssPath with
          | Some cssPath =>
              if negb (existsSync cssPath) then
                Some (InvalidArgumentException
                        ("CSS file not found or not readable: " ++ cssPath))
              else match readFileSync cssPath with
                   | inl e => Some (Thrown e)
                   | inr _ => None
                   end
          | None => None
          end
        with
        | Some e => Throw e
        | None =>
            match first_unreadable images with
            | Some e => Throw (Thrown e)
            | None => Return (html_members htmlPath cssPath images)
            end
        end
    end.
Proof.
  unfold html_payload, html_members, file_bytes.
  destruct (negb (existsSync htmlPath)); [reflexivity|].
  destruct (readFileSync htmlPath) as [e|htmlContent]; simpl; [reflexivity|].
  assert (I : processImages images =
              match first_unreadable images with
              | Some e => Throw (Thrown e)
              | None => Return (map entry (List.filter kept images))
              end) by apply (processImages_from_run images []).
  assert (E : first_unreadable images <> None -> (0 <? length images)%nat = true).
  { destruct images; [intros N; exfalso; apply N; reflexivity | reflexivity]. }
  destruct cssPath as [cssPath|].
  - destruct (negb (existsSync cssPath)); [reflexivity|].
    destruct (readFileSync cssPath) as [e|cssContent]; simpl; [reflexivity|].
    rewrite I. destruct (first_unreadable images) as [e|].
    + rewrite E by discriminate. reflexivity.
    + destruct (0 <? length images)%nat; reflexivity.
  - rewrite I. destruct (first_unreadable images) as [e|].
    + rewrite E by discriminate. reflexivity.
    + destruct (0 <? length images)%nat; reflexivity.
Qed.

(** X13. [generateFromHtml] sends its request exactly when the HTML file
    opens, the CSS file opens if a CSS path is given, and no image file it
    would open fails to be read; else it sends nothing.
    The payload then has the members [html], [css] when a CSS path is given
    and [images] when the list given is not empty, in this order. The checks
    are made in the order HTML, CSS, images, and the first to fail gives the
    error: an HTML path that does not exist is reported whatever the CSS
    path is, and a file that exists and cannot be read lets the error of
    [readFileSync] through. *)
Theorem generateFromHtml_sends_when_every_file_opens
    (client : GeneratePDFs) (htmlPath : string) (cssPath : option string)
    (images : list ImageInput.t) (w : World) :
  let result := generateFromHtml client htmlPath cssPath images w in
  let css_opens :=
    match cssPath with Some cssPath => opens cssPath | None => true end in
  requests (snd result) =
  (if opens htmlPath && css_opens
      && bool_decide (first_unreadable images = None)
   then POST client "/pdfs/generate"
             (VObject (html_members htmlPath cssPath images)) :: requests w
   else requests w)
  /\ (existsSync htmlPath = false ->
      fst result =
      Throw (InvalidArgumentException
               ("HTML file not found or not readable: " ++ htmlPath)))
  /\ (forall e,
        existsSync htmlPath = true -> readFileSync htmlPath = inl e ->
        fst result = Throw (Thrown e))
  /\ (forall css,
        opens htmlPath = true -> cssPath = Some css ->
        (existsSync css = false ->
         fst result =
         Throw (InvalidArgumentException
                  ("CSS file not found or not readable: " ++ css)))
        /\ (forall e,
              existsSync css = true -> readFileSync css = inl e ->
              fst result = Throw (Thrown e)))
  /\ (forall e,
        opens htmlPath = true -> css_opens = true ->
        first_unreadable images = Some e ->
        fst result = Throw (Thrown e)).
Proof.
  intros result css_opens. subst result css_opens.
  rewrite generateFromHtml_run, html_payload_run. unfold opens, can_read.
  destruct (existsSync htmlPath) eqn:XH; simpl;
    [destruct (readFileSync htmlPath) as [eh|htmlContent] eqn:RH; simpl;
     [|destruct cssPath as [css|];
       [destruct (existsSync css) eqn:XC; simpl;
        [destruct (readFileSync css) as [ec|cssContent] eqn:RC; simpl;
         [|destruct (first_unreadable images) as [ei|] eqn:F]|]
       |destruct (first_unreadable images) as [ei|] eqn:F]]|];
    rewrite ?bool_decide_eq_false_2 by discriminate;
    rewrite ?bool_decide_eq_true_2 by reflexivity;
    (split;
     [first [reflexivity
            | rewrite (call_settles _ _ _ _ (makeRequest_run _ _ _ _));
              apply settle_frame]|]);
    (split; [intros; simpl; congruence|]);
    (split; [intros; simpl; congruence|]);
    (split; [|intros; simpl; congruence]);
    intros c U E; simplify_eq; rewrite ?XC, ?RC;
    (split; intros; simpl; congruence).
Qed.

End Local.

(** ** Where the errors come from *)

Section Errors.
Context `{Host}.

Lemma first_unreadable_file (images : list ImageInput.t) (e : HostError) :
  first_unreadable images = Some e ->
  exists image,
    In image images
    /\ existsSync (ImageInput.path image) = true
    /\ readFileSync (ImageInput.path image) = inl e.
Proof.
  induction images as [|image rest IH]; simpl; [discriminate|].
  destruct (kept image) eqn:K.
  - destruct (readFileSync (ImageInput.path image)) as [e'|content] eqn:F.
    + intros E. injection E as ->. exists image.
      unfold kept in K. apply andb_prop in K as [_ K]. auto.
    + intros E. destruct (IH E) as (i & I & X). exists i. auto.
  - intros E. destruct (IH E) as (i & I & X). exists i. auto.
Qed.

Lemma html_payload_thrown (htmlPath : string) (cssPath : option string)
    (images : list ImageInput.t) (e : HostError) :
  html_payload htmlPath cssPath images = Throw (Thrown e) ->
  exists path,
    In path (files_of (GenerateFromHtml htmlPath cssPath images))
    /\ existsSync path = true
    /\ readFileSync path = inl e.
Proof.
  rewrite html_payload_run. simpl.
  destruct (existsSync htmlPath) eqn:Xh; simpl; [|discriminate].
  destruct (readFileSync htmlPath) as [eh|htmlContent] eqn:Rh.
  { intros E. injection E as ->. exists htmlPath. auto. }
  assert (I : match first_unreadable images with
              | Some e' => Throw (Thrown e')
              | None => Return (html_members htmlPath cssPath images)
              end = Throw (Thrown e) ->
              exists path,
                In path (map ImageInput.path images)
                /\ existsSync path = true /\ readFileSync path = inl e).
  { destruct (first_unreadable images) as [e'|] eqn:F; [|discriminate].
    intros E. injection E as ->.
    destruct (first_unreadable_file _ _ F) as (image & In_ & X & R).
    exists (ImageInput.path image). split; [apply in_map, In_ | auto]. }
  destruct cssPath as [css|].
  - destruct (existsSync css) eqn:Xc; simpl; [|discriminate].
    destruct (readFileSync css) as [ec|cssContent] eqn:Rc.
    + intros E. injection E as ->. exists css. simpl. auto.
    + intros E. destruct (I E) as (path & In_ & X). exists path.
      split; [right; right; exact In_ | exact X].
  - intros E. destruct (I E) as (path & In_ & X). exists path.
    split; [right; exact In_ | exact X].
Qed.

(** X15. Where the errors of [generateFromHtml], [generateFromUrl],
    [getPdf] and [refresh] come from. None of them throws a
    [RuntimeException]. The only error the client makes with [new Error] is
    the API error, and it is thrown only after a request was sent and
    answered with a status that is not a success. An error that the runtime
    made and that is let through is, when nothing was sent, the error of
    [readFileSync] on the HTML path, the CSS path or the path of an image,
    a path that exists (in Node an [Error] object as well, such as EISDIR),
    or the error of [refresh] on something that is no [Pdf]; after the
    request, it is the error of [fetch] or the error of [json()]. *)
Theorem errors_are_made_by_the_client_or_let_through
    (client : GeneratePDFs) (op : Operation) (w : World) :
  match fst (run client op w) with
  | Return _ => True
  | Throw (InvalidArgumentException _) => True
  | Throw (RuntimeException _) => False
  | Throw (Error m) =>
      exists request r,
        request_of client op w = Some request
        /\ fetch_response (requests w) request = inr r
        /\ ok r = false
        /\ Error m = api_failure r
  | Throw (Thrown e) =>
      match request_of client op w with
      | Some request =>
          fetch_response (requests w) request = inl e
          \/ exists r,
               fetch_response (requests w) request = inr r
               /\ ok r = true /\ json r = inl e
      | None =>
          (exists path,
              In path (files_of op)
              /\ existsSync path = true /\ readFileSync path = inl e)
          \/ (exists this,
                op = Refresh this /\ heap w !! this = None
                /\ host_kind e = TypeError)
      end
  end.
Proof.
  pose proof (run_shape client op w) as S.
  pose proof (local_phase_errors client op w) as L.
  destruct (request_of client op w) as [request|] eqn:Q.
  - rewrite S. unfold settle.
    destruct (fetch_response (requests w) request) as [e|r] eqn:F;
      [left; reflexivity|].
    destruct (ok r) eqn:K; [|simpl; eauto 6].
    destruct (json r) as [e|response] eqn:J; [right; exists r; auto|].
    destruct (handle_of_frame (acting client op w) response (after request w))
      as [_ [[e E] | (d & c & _ & _ & _ & E)]]; rewrite E; simpl; [|exact I].
    unfold handle_of in E. destruct (ApiResponse.data response) as [d|].
    + rewrite fromArray_run in E.
      destruct (complete d); [|injection E as <-; exact I].
      destruct (timestamp (PdfData.created_at d)); [discriminate E|].
      injection E as <-. exact I.
    + injection E as <-. exact I.
  - destruct (fst (run client op w)) as [handle|e] eqn:R; [exact I|].
    specialize (L e eq_refl eq_refl).
    destruct e as [m|m|m|e]; simpl in L; try tauto.
    destruct op as [htmlPath cssPath images | url | id | this]; simpl in R, Q.
    + rewrite generateFromHtml_run in R.
      destruct (html_payload htmlPath cssPath images) as [payload|e'] eqn:P;
        [discriminate Q|].
      simpl in R. injection R as ->. left. exact (html_payload_thrown _ _ _ _ P).
    + rewrite generateFromUrl_run in R.
      destruct (URL_new url); [discriminate R | discriminate Q].
    + unfold getPdf in R. destruct (le_zero id); [discriminate R | discriminate Q].
    + destruct (heap w !! this) as [o|] eqn:E.
      * rewrite (refresh_run _ _ _ E) in R. unfold getPdf in R. simpl in Q.
        destruct (le_zero (priv_id o)); [discriminate R | discriminate Q].
      * unfold refresh, bind, read in R. rewrite E in R. simpl in R.
        injection R as <-. right. exists this. auto.
Qed.

End Errors.

(** ** The base64 of the payload loses nothing *)

Lemma base64_three (a b c : byte) (rest : Buffer) :
  base64 (a :: b :: c :: rest) =
  let w := N.lor (N.lor (N.shiftl (Byte.to_N a) 16)
                        (N.shiftl (Byte.to_N b) 8)) (Byte.to_N c) in
  String (sextet 3 w) (String (sextet 2 w)
    (String (sextet 1 w) (String (sextet 0 w) (base64 rest)))).
Proof. reflexivity. Qed.

Lemma digit_value (n : N) :
  (n < 64)%N ->
  base64_value (base64_digit n) = Some n
  /\ Ascii.eqb (base64_digit n) "=" = false.
Proof.
  intros L.
  assert (A : forallb (fun k =>
                match base64_value (base64_digit (N.of_nat k)) with
                | Some v => N.eqb v (N.of_nat k)
                | None => false
                end && negb (Ascii.eqb (base64_digit (N.of_nat k)) "="))
              (seq 0 64) = true) by (vm_compute; reflexivity).
  rewrite forallb_forall in A.
  specialize (A (N.to_nat n)). rewrite N2Nat.id in A.
  assert (I : In (N.to_nat n) (seq 0 64)) by (apply in_seq; lia).
  specialize (A I). apply andb_prop in A as [V E].
  destruct (base64_value (base64_digit n)) as [v|]; [|discriminate].
  apply N.eqb_eq in V. subst v. apply negb_true_iff in E. auto.
Qed.

Lemma sextet_value (k w : N) :
  base64_value (sextet k w) = Some ((w / 2 ^ (6 * k)) mod 64)%N
  /\ Ascii.eqb (sextet k w) "=" = false.
Proof.
  unfold sextet. change 63%N with (N.ones 6).
  rewrite N.land_ones, N.shiftr_div_pow2. change (2 ^ 6)%N with 64%N.
  apply digit_value. apply N.mod_lt. discriminate.
Qed.

Lemma lor_shiftl_small (y x k : N) :
  (x < 2 ^ k)%N -> N.lor (N.shiftl y k) x = (y * 2 ^ k + x)%N.
Proof.
  intros L. rewrite N.shiftl_mul_pow2.
  assert (D : N.land (y * 2 ^ k) x = 0%N).
  { apply N.bits_inj. intros n. rewrite N.land_spec, N.bits_0.
    destruct (N.lt_ge_cases n k) as [Lo|Hi].
    - rewrite N.mul_pow2_bits_low by exact Lo. reflexivity.
    - rewrite <- (N.mod_small x (2 ^ k)) by exact L.
      rewrite N.mod_pow2_bits_high by exact Hi. apply andb_false_r. }
  rewrite N.add_nocarry_lxor by exact D. symmetry. apply N.lxor_lor, D.
Qed.

Lemma byte_bound (a : byte) : (Byte.to_N a < 256)%N.
Proof. pose proof (Byte.to_N_bounded a). lia. Qed.

Lemma low_byte_to_N (a : byte) (n : N) :
  (n mod 256 = Byte.to_N a)%N -> low_byte n = a.
Proof. intros E. unfold low_byte. rewrite E, Byte.of_to_N. reflexivity. Qed.

Lemma word_of_three (a b c : N) :
  (b < 256)%N -> (c < 256)%N ->
  N.lor (N.lor (N.shiftl a 16) (N.shiftl b 8)) c
  = (a * 65536 + b * 256 + c)%N.
Proof.
  intros B C.
  rewrite (N.shiftl_mul_pow2 b 8).
  rewrite lor_shiftl_small by (change (2 ^ 8)%N with 256%N; change (2 ^ 16)%N with 65536%N; lia).
  change (2 ^ 8)%N with 256%N; change (2 ^ 16)%N with 65536%N.
  replace (a * 65536 + b * 256)%N with (N.shiftl (a * 256 + b) 8)
    by (rewrite N.shiftl_mul_pow2; change (2 ^ 8)%N with 256%N; lia).
  rewrite lor_shiftl_small by exact C.
  rewrite N.shiftl_mul_pow2. reflexivity.
Qed.

Lemma word_of_two (a b : N) :
  (b < 256)%N ->
  N.lor (N.shiftl a 16) (N.shiftl b 8) = (a * 65536 + b * 256)%N.
Proof.
  intros B. rewrite (N.shiftl_mul_pow2 b 8).
  rewrite lor_shiftl_small by (change (2 ^ 8)%N with 256%N; change (2 ^ 16)%N with 65536%N; lia).
  reflexivity.
Qed.

Lemma sextets_of_word (w : N) :
  (w < 16777216)%N ->
  ((((w / 262144) mod 64 * 64 + (w / 4096) mod 64) * 64
    + (w / 64) mod 64) * 64 + w mod 64 = w)%N.
Proof.
  intros L.
  replace (w / 262144)%N with (w / 64 / 64 / 64)%N
    by (rewrite !N.Div0.div_div; reflexivity).
  replace (w / 4096)%N with (w / 64 / 64)%N
    by (rewrite N.Div0.div_div; reflexivity).
  pose proof (N.Div0.div_mod w 64) as E0.
  pose proof (N.Div0.div_mod (w / 64) 64) as E1.
  pose proof (N.Div0.div_mod (w / 64 / 64) 64) as E2.
  assert (S : (w / 64 / 64 / 64 < 64)%N).
  { revert E0 E1 E2.
    generalize (w mod 64)%N ((w / 64) mod 64)%N ((w / 64 / 64) mod 64)%N
               (w / 64 / 64 / 64)%N.
    generalize (w / 64 / 64)%N. generalize (w / 64)%N. intros. lia. }
  rewrite (N.mod_small _ _ S).
  revert E0 E1 E2.
  generalize (w mod 64)%N ((w / 64) mod 64)%N ((w / 64 / 64) mod 64)%N
             (w / 64 / 64 / 64)%N.
  generalize (w / 64 / 64)%N. generalize (w / 64)%N. intros. lia.
Qed.

Lemma bytes_of_word (a b c : N) :
  (a < 256)%N -> (b < 256)%N -> (c < 256)%N ->
  let w := (a * 65536 + b * 256 + c)%N in
  ((w / 65536) mod 256 = a /\ (w / 256) mod 256 = b /\ w mod 256 = c)%N.
Proof.
  intros A B C w.
  assert (Q1 : (w / 256 = a * 256 + b)%N).
  { symmetry. apply (N.div_unique w 256 _ c); [exact C | unfold w; lia]. }
  assert (Q2 : (w / 65536 = a)%N).
  { symmetry. apply (N.div_unique w 65536 _ (b * 256 + c)); [|unfold w]; lia. }
  rewrite Q1, Q2. split; [apply N.mod_small, A|]. split.
  - symmetry. apply (N.mod_unique _ 256 a); [exact B | lia].
  - symmetry. apply (N.mod_unique _ 256 (a * 256 + b)); [exact C | unfold w; lia].
Qed.

Lemma decode_three (a b c : byte) (rest : string) (bytes : Buffer) :
  base64_decode rest = Some bytes ->
  let w := N.lor (N.lor (N.shiftl (Byte.to_N a) 16)
                        (N.shiftl (Byte.to_N b) 8)) (Byte.to_N c) in
  base64_decode
    (String (sextet 3 w) (String (sextet 2 w)
       (String (sextet 1 w) (String (sextet 0 w) rest))))
  = Some (a :: b :: c :: bytes).
Proof.
  intros R w.
  pose proof (byte_bound a) as A. pose proof (byte_bound b) as B.
  pose proof (byte_bound c) as C.
  assert (W : w = (Byte.to_N a * 65536 + Byte.to_N b * 256 + Byte.to_N c)%N)
    by (apply word_of_three; assumption).
  destruct (bytes_of_word _ _ _ A B C) as (Ea & Eb & Ec). rewrite <- W in *.
  cbn [base64_decode].
  destruct (sextet_value 3 w) as [-> _]. destruct (sextet_value 2 w) as [-> _].
  destruct (sextet_value 1 w) as [-> _]. destruct (sextet_value 0 w) as [-> ->].
  rewrite R. cbv zeta.
  change (2 ^ (6 * 3))%N with 262144%N. change (2 ^ (6 * 2))%N with 4096%N.
  change (2 ^ (6 * 1))%N with 64%N. change (2 ^ (6 * 0))%N with 1%N.
  rewrite N.div_1_r, sextets_of_word by lia.
  rewrite (low_byte_to_N a _ Ea), (low_byte_to_N b _ Eb), (low_byte_to_N c _ Ec).
  reflexivity.
Qed.

Lemma decode_two (a b : byte) :
  let w := N.lor (N.shiftl (Byte.to_N a) 16) (N.shiftl (Byte.to_N b) 8) in
  base64_decode
    (String (sextet 3 w) (String (sextet 2 w) (String (sextet 1 w) "=")))
  = Some [a; b].
Proof.
  intros w.
  pose proof (byte_bound a) as A. pose proof (byte_bound b) as B.
  assert (W : w = (Byte.to_N a * 65536 + Byte.to_N b * 256)%N)
    by (apply word_of_two; assumption).
  cbn [base64_decode].
  destruct (sextet_value 3 w) as [-> _]. destruct (sextet_value 2 w) as [-> _].
  destruct (sextet_value 1 w) as [-> ->]. cbn [Ascii.eqb Bool.eqb]. cbv zeta.
  change (2 ^ (6 * 3))%N with 262144%N. change (2 ^ (6 * 2))%N with 4096%N.
  change (2 ^ (6 * 1))%N with 64%N.
  pose proof (sextets_of_word w ltac:(lia)) as S.
  assert (Z : (w mod 64 = 0)%N).
  { replace w with ((Byte.to_N a * 1024 + Byte.to_N b * 4) * 64)%N by lia.
    apply N.Div0.mod_mul. }
  rewrite Z, N.add_0_r in S.
  set (x := (((w / 262144) mod 64 * 64 + (w / 4096) mod 64) * 64
             + (w / 64) mod 64)%N) in *.
  assert (X : x = (Byte.to_N a * 1024 + Byte.to_N b * 4)%N) by lia.
  clearbody x. subst x.
  rewrite (low_byte_to_N a), (low_byte_to_N b); [reflexivity| |].
  - replace ((Byte.to_N a * 1024 + Byte.to_N b * 4) / 4)%N
      with (Byte.to_N a * 256 + Byte.to_N b)%N
      by (apply (N.div_unique _ 4 _ 0); lia).
    symmetry. apply (N.mod_unique _ 256 (Byte.to_N a)); [exact B | lia].
  - replace ((Byte.to_N a * 1024 + Byte.to_N b * 4) / 1024)%N
      with (Byte.to_N a)
      by (apply (N.div_unique _ 1024 _ (Byte.to_N b * 4)); lia).
    apply N.mod_small, A.
Qed.

Lemma decode_one (a : byte) :
  let w := N.shiftl (Byte.to_N a) 16 in
  base64_decode (String (sextet 3 w) (String (sextet 2 w) "==")) = Some [a].
Proof.
  intros w. pose proof (byte_bound a) as A.
  assert (W : w = (Byte.to_N a * 65536)%N) by apply N.shiftl_mul_pow2.
  cbn [base64_decode].
  destruct (sextet_value 3 w) as [-> _]. destruct (sextet_value 2 w) as [-> _].
  cbn [Ascii.eqb Bool.eqb].
  change (2 ^ (6 * 3))%N with 262144%N. change (2 ^ (6 * 2))%N with 4096%N.
  pose proof (sextets_of_word w ltac:(lia)) as S.
  assert (Z0 : (w mod 64 = 0)%N).
  { replace w with ((Byte.to_N a * 1024) * 64)%N by lia. apply N.Div0.mod_mul. }
  assert (Z1 : ((w / 64) mod 64 = 0)%N).
  { replace (w / 64)%N with ((Byte.to_N a * 16) * 64)%N;
      [apply N.Div0.mod_mul|].
    apply (N.div_unique _ 64 _ 0); lia. }
  rewrite Z0, Z1, !N.add_0_r in S.
  set (x := ((w / 262144) mod 64 * 64 + (w / 4096) mod 64)%N) in *.
  assert (X : x = (Byte.to_N a * 16)%N) by lia.
  clearbody x. subst x.
  rewrite (low_byte_to_N a); [reflexivity|].
  rewrite N.div_mul by discriminate. apply N.mod_small, A.
Qed.

Lemma base64_length (bytes : Buffer) :
  forall n, (length bytes <= n)%nat ->
    base64_decode (base64 bytes) = Some bytes
    /\ String.length (base64 bytes) = (4 * ((length bytes + 2) / 3))%nat.
Proof.
  intros n. revert bytes.
  induction n as [|n IH]; intros bytes L.
  - destruct bytes; [split; reflexivity | simpl in L; lia].
  - destruct bytes as [|a [|b [|c rest]]].
    + split; reflexivity.
    + split; [apply decode_one | reflexivity].
    + split; [apply decode_two | reflexivity].
    + destruct (IH rest) as [D S]; [simpl in L; lia|].
      rewrite base64_three. cbv zeta. split.
      * apply decode_three, D.
      * cbn [String.length length]. rewrite S.
        replace (Datatypes.S (Datatypes.S (Datatypes.S (length rest))) + 2)%nat
          with (length rest + 2 + 1 * 3)%nat by lia.
        rewrite Nat.div_add by discriminate. lia.
Qed.

(** X14. The base64 text the SDK puts in the payload for the HTML file,
    the CSS file and every image loses nothing: read back as base64 (RFC
    4648, with padding) it gives the bytes of the file, so files that differ
    give texts that differ. It has four characters for every three bytes,
    the last group padded. *)
Theorem base64_can_be_read_back :
  (forall bytes : Buffer, base64_decode (base64 bytes) = Some bytes)
  /\ (forall a b : Buffer, base64 a = base64 b -> a = b)
  /\ (forall bytes : Buffer,
        String.length (base64 bytes) = (4 * ((length bytes + 2) / 3))%nat).
Proof.
  assert (D : forall bytes, base64_decode (base64 bytes) = Some bytes)
    by (intros bytes; apply (base64_length bytes (length bytes)); lia).
  split; [exact D|]. split.
  - intros a b E. pose proof (D a) as Da. rewrite E, D in Da. congruence.
  - intros bytes. apply (base64_length bytes (length bytes)). lia.
Qed.

(** * More runs on the concrete runtime *)

(** X3, on a completed handle, to a path that can be written and to one
    that cannot, and on a pending handle. *)
Lemma downloadToFile_on_a_read_only_path :
  let w := mkWorld [pending_pdf; completed_pdf] [] in
  let h := server (inr delivered) in
  let d := disk ["/ro/out.pdf"] in
  let request :=
    GET client "https://api.generatepdfs.com/pdfs/123/download/token" in
  heap w !! 1%nat = Some completed_pdf
  /\ snd (@downloadToFile h d 1%nat "/tmp/out.pdf" (w, [])) =
     (after request w, [("/tmp/out.pdf", list_byte_of_string "%PDF-1.4")])
  /\ fst (@downloadToFile h d 1%nat "/tmp/out.pdf" (w, [])) = Return true
  /\ fst (@downloadToFile h d 1%nat "/ro/out.pdf" (w, [])) =
     Throw (RuntimeException "Failed to write PDF to file: /ro/out.pdf")
  /\ @downloadToFile h d 0%nat "/tmp/out.pdf" (w, []) =
     (Throw (RuntimeException "PDF is not ready yet. Current status: pending"),
      (w, [])).
Proof.
  intros w h d request. split; [reflexivity|].
  pose proof (@downloadToFile_writes_the_bytes_downloaded
                h d 1%nat completed_pdf "/tmp/out.pdf" w [] eq_refl)
    as [_ Tmp].
  destruct (Tmp eq_refl) as (_ & _ & Tmp').
  destruct (Tmp' delivered eq_refl eq_refl) as (Written & Done & _).
  pose proof (@downloadToFile_writes_the_bytes_downloaded
                h d 1%nat completed_pdf "/ro/out.pdf" w [] eq_refl)
    as [_ Ro].
  destruct (Ro eq_refl) as (_ & _ & Ro').
  destruct (Ro' delivered eq_refl eq_refl) as (_ & _ & Refused).
  pose proof (@downloadToFile_writes_the_bytes_downloaded
                h d 0%nat pending_pdf "/tmp/out.pdf" w [] eq_refl)
    as [Pending _].
  split; [exact Written|]. split; [exact (Done tt eq_refl)|].
  split; [exact (Refused _ eq_refl)|].
  apply Pending. discriminate.
Defined.

(** X4, on the completed handle of the tests. *)
Lemma download_on_a_completed_handle :
  let w := mkWorld [pending_pdf; completed_pdf] [] in
  let h := server (inr delivered) in
  let request :=
    GET client "https://api.generatepdfs.com/pdfs/123/download/token" in
  heap w !! 1%nat = Some completed_pdf
  /\ priv_status completed_pdf = "completed"
  /\ snd (@download h 1%nat w) = after request w
  /\ fst (@download h 1%nat w) = Return (list_byte_of_string "%PDF-1.4").
Proof.
  intros w h request.
  destruct (@download_returns_the_bytes_of_the_answer
              h 1%nat completed_pdf w eq_refl eq_refl)
    as (Sent & _ & _ & Bytes & _).
  split; [reflexivity|]. split; [reflexivity|]. split; [exact Sent|].
  exact (Bytes delivered eq_refl eq_refl).
Defined.

(** X6, on [getPdf(789)] with the client of the tests. *)
Lemma getPdf_sends_the_token :
  let op := GetPdf (Number_ofZ 789) in
  let request := GET client "https://api.generatepdfs.com/pdfs/789" in
  @request_of offline client op empty = Some request
  /\ requests (snd (@run offline client op empty)) = [request]
  /\ In ("Authorization", "Bearer test-api-token")
        (headers (request_init request))
  /\ String.prefix "https://api.generatepdfs.com" (request_url request) = true.
Proof.
  intros op request.
  destruct (@requests_carry_the_token_to_the_base_url
              offline client op empty request eq_refl)
    as (Sent & Token & _ & Base & _).
  split; [reflexivity|]. split; [exact Sent|]. split; [exact Token|].
  exact (Base "test-api-token" eq_refl).
Defined.

(** X7, on a 404 and on a body without [data]. *)
Lemma generateFromUrl_on_a_404_and_on_a_body_without_data :
  let op := GenerateFromUrl "https://example.com" in
  let request (h : Host) :=
    @POST h client "/pdfs/generate"
          (VObject [("url", VString "https://example.com")]) in
  let down := server (inr not_found) in
  let bare := server (inr no_data) in
  @request_of down client op empty = Some (request down)
  /\ @run down client op empty =
     (Throw (Error "API request failed: 404 Not Found - no such document"),
      after (request down) empty)
  /\ @run bare client op empty =
     (Throw (InvalidArgumentException "Invalid API response: missing data"),
      after (request bare) empty).
Proof.
  intros op request down bare.
  destruct (@operations_settle_on_the_answer
              down client op empty (request down) eq_refl)
    as (_ & Failure & _).
  destruct (@operations_settle_on_the_answer
              bare client op empty (request bare) eq_refl)
    as (_ & _ & _ & Missing & _).
  split; [reflexivity|].
  split; [exact (Failure not_found eq_refl eq_refl)|].
  exact (Missing no_data eq_refl eq_refl eq_refl).
Defined.

(** X12, on [getPdf(789)] answered with the completed document 123 of the
    tests: the handle has the id 123, not 789. *)
Lemma getPdf_returns_the_id_of_the_answer :
  let h := server (inr completed_answer) in
  let op := GetPdf (Number_ofZ 789) in
  let request := GET client "https://api.generatepdfs.com/pdfs/789" in
  let w1 := mkWorld [completed_pdf] [request] in
  (@request_of h client op empty = Some request
   /\ @fetch_response h [] request = inr completed_answer
   /\ ok completed_answer = true
   /\ json completed_answer = inr (ApiResponse.mk (Some completed_data))
   /\ complete completed_data = true
   /\ @timestamp h (PdfData.created_at completed_data) = Some noon)
  /\ @run h client op empty = (Return 0%nat, w1)
  /\ getId 0%nat w1 = (Return (Number_ofZ 123), w1)
  /\ isReady 0%nat w1 = (Return true, w1)
  /\ @refresh h 0%nat w1 = @getPdf h client (Number_ofZ 123) w1.
Proof.
  intros h op request w1.
  destruct (@handles_are_made_of_the_answer
              h client op empty request completed_answer completed_data noon
              eq_refl eq_refl eq_refl eq_refl eq_refl eq_refl)
    as (Run & Id & Ready & Again & _).
  split; [repeat split|].
  split; [exact Run|]. split; [exact Id|]. split; [exact Ready | exact Again].
Defined.


(** X15, on a directory given as the HTML file: the read error is let
    through before anything is sent; and on a 404: the API error comes after
    the request. *)
Lemma errors_on_a_directory_and_on_a_404 :
  let disk := Sample.host site [] in
  let down := server (inr not_found) in
  let EISDIR :=
    mkHostError SystemError "EISDIR: illegal operation on a directory, read" in
  (@run disk client (GenerateFromHtml "/site/assets" None []) empty =
   (Throw (Thrown EISDIR), empty)
   /\ exists path,
        In path ["/site/assets"]
        /\ @existsSync disk path = true /\ @readFileSync disk path = inl EISDIR)
  /\ (fst (@run down client (GetPdf (Number_ofZ 789)) empty) =
      Throw (Error "API request failed: 404 Not Found - no such document")
      /\ exists request r,
           @request_of down client (GetPdf (Number_ofZ 789)) empty = Some request
           /\ @fetch_response down [] request = inr r
           /\ ok r = false
           /\ Error "API request failed: 404 Not Found - no such document"
              = @api_failure down r).
Proof.
  intros disk down EISDIR. split; (split; [reflexivity|]).
  - destruct (@errors_are_made_by_the_client_or_let_through
                disk client (GenerateFromHtml "/site/assets" None []) empty)
      as [File | (this & Other & _)]; [exact File | discriminate Other].
  - exact (@errors_are_made_by_the_client_or_let_through
             down client (GetPdf (Number_ofZ 789)) empty).
Defined.
